(** * close-stale-prs: the staleness engine of [src/stale-prs.ts]

    A shallow embedding of [StalePrFinder] and of the helper functions of
    [src/stale-prs.ts], followed by the properties of the classification
    and action-decision logic.

    Conventions of the embedding.
    - A [Date] is its [getTime()] value, an integer number of milliseconds
      ([Time], a [Z]).  Timestamps of the hosting API are ISO-8601 strings
      of one fixed format, on which string comparison ([>], [localeCompare])
      is the chronological order; a timestamp field is an [option Time],
      [None] standing for [null], [undefined] or the empty string.
    - A JavaScript object used as a dictionary ([Record<string, A>]) is a
      [gmap string A] of its own properties; a read [ret[key]] of a key
      that is not among them finds the members the object inherits from
      [Object.prototype] ([get]).
    - [await] is sequencing.  The observations the loop fetches for one
      pull request are gathered in a record ([PullObs.t]); the writes and
      the dry-run log lines are appended to a trace.
    - Day counts and counters are integers well inside the range in which
      JavaScript numbers are exact. *)

From Stdlib Require Import ZArith Lia.
From Stdlib Require Import Ascii.
From stdpp Require Import base option list gmap strings pretty sorting.

Local Open Scope string_scope.
Local Open Scope Z_scope.

Abbreviation Time := Z (only parsing).

(** ** Raw observations *)

Module CheckRun.
Record t := mk {
  name : string;
  conclusion : option string;
  completed_at : option Time;
}.
End CheckRun.

Module CommitStatus.
Record t := mk {
  context : string;
  state : string;
  updated_at : option Time;
}.
End CommitStatus.

Module Review.
Record t := mk {
  author_association : string;
  state : string;
  submitted_at : option Time;
}.
End Review.

Module Comment.
(** [submitted_at] is the field [memberReviewed] reads on a comment. *)
Record t := mk {
  body : option string;
  created_at : Time;
  author_association : string;
  submitted_at : option Time;
}.
End Comment.

(** [c.commit.committer?.date] of a commit. *)
Module Commit.
Record t := mk { committer_date : option Time }.
End Commit.

(** A label is a string or an object with an optional [name]. *)
Inductive Label :=
| LabelString (l : string)
| LabelObject (name : option string).

(** ** Derived facts *)

Record FailedCheck := { when : Time }.

Module ReviewState.
Inductive kind := approved | changes_requested.
Record t := mk { state : kind; when : Time }.
End ReviewState.

Record Stale := { reason : string; since : Time }.

Inductive Action := nothing | warn | close.

Inductive Marker := STALE_PR | MERGE_CONFLICTS.

Global Instance Action_eq_dec : EqDecision Action.
Proof. solve_decision. Defined.
Global Instance Marker_eq_dec : EqDecision Marker.
Proof. solve_decision. Defined.
Global Instance ReviewState_kind_eq_dec : EqDecision ReviewState.kind.
Proof. solve_decision. Defined.

(** ** JavaScript helpers *)

(** [a > b] on two timestamp fields: a comparison of strings when both are
    present; with [null] on either side both operands are converted to
    numbers, the string becomes [NaN], and the comparison is false. *)
Definition js_gt (a b : option Time) : bool :=
  match a, b with
  | Some x, Some y => bool_decide (y < x)
  | _, _ => false
  end.

(** [Object.fromEntries]: later entries overwrite earlier ones. *)
Definition fromEntries {V} (es : list (string * V)) : gmap string V :=
  foldl (λ m e, <[e.1 := e.2]> m) ∅ es.

(** [Object.entries], [Object.values]. *)
Definition entries {V} (m : gmap string V) : list (string * V) := map_to_list m.
Definition values {V} (m : gmap string V) : list V := (map_to_list m).*2.

(** [Object.assign(target, source)]: the keys of [source] win.  The keys
    assigned in [failingChecks] are names stored by [mostRecent], none of
    which names a member of [Object.prototype]. *)
Definition assign {V} (target source : gmap string V) : gmap string V :=
  source ∪ target.

(** The names of the members an object created by [{}] inherits from
    [Object.prototype]: methods, and the accessor [__proto__], which reads
    as [Object.prototype] itself. *)
Definition Object_prototype : list string :=
  ["constructor"; "hasOwnProperty"; "isPrototypeOf"; "propertyIsEnumerable";
   "toLocaleString"; "toString"; "valueOf"; "__proto__";
   "__defineGetter__"; "__defineSetter__"; "__lookupGetter__"; "__lookupSetter__"].

(** The value of [ret[key]] on such an object: a property of its own, a
    member it inherits, or [undefined]. *)
Inductive Property (A : Type) :=
| own (x : A)
| inherited
| undefined.
Arguments own {A} x.
Arguments inherited {A}.
Arguments undefined {A}.

Definition get {A} (ret : gmap string A) (key : string) : Property A :=
  match ret !! key with
  | Some x => own x
  | None => if bool_decide (key ∈ Object_prototype) then inherited else undefined
  end.

(** ** [mostRecent], [maxTime] *)

(** The test of line 395 is [!ret[key] || x[timeKey] > ret[key][timeKey]].
    An inherited member is a function or an object: it is truthy, and its
    [timeKey] is [undefined], with which the comparison is false, so that
    nothing is stored under such a name. *)
Definition mostRecent {A} (idKey : A → string) (timeKey : A → option Time)
    (xs : list A) : gmap string A :=
  foldl (λ ret x,
           let key := idKey x in
           match get ret key with
           | undefined => <[key := x]> ret
           | own old =>
               if js_gt (timeKey x) (timeKey old) then <[key := x]> ret else ret
           | inherited => ret
           end) ∅ xs.

(** [Math.max(...ts)] of a non-empty argument list. *)
Definition maxTime (xs : gmap string FailedCheck) : option Time :=
  match when <$> values xs with
  | [] => None
  | t :: ts => Some (foldl Z.max t ts)
  end.

(** ** [failingChecks] *)

Definition failedCheckRun (c : CheckRun.t) : option (string * FailedCheck) :=
  if bool_decide (CheckRun.conclusion c = Some "failure") then
    match CheckRun.completed_at c with
    | Some t => Some (CheckRun.name c, {| when := t |})
    | None => None
    end
  else None.

Definition failedStatus (c : CommitStatus.t) : option (string * FailedCheck) :=
  if bool_decide (CommitStatus.state c = "failure") then
    match CommitStatus.updated_at c with
    | Some t => Some (CommitStatus.context c, {| when := t |})
    | None => None
    end
  else None.

Definition failingChecks (check_runs : list CheckRun.t)
    (statuses : list CommitStatus.t) : gmap string FailedCheck :=
  let ret : gmap string FailedCheck := ∅ in
  let uniqueChecks := mostRecent CheckRun.name CheckRun.completed_at check_runs in
  let ret := assign ret (fromEntries (omap failedCheckRun (values uniqueChecks))) in
  let uniqueStatuses := mostRecent CommitStatus.context CommitStatus.updated_at statuses in
  let ret := assign ret (fromEntries (omap failedStatus (values uniqueStatuses))) in
  ret.

(** ** [Array.prototype.sort]

    The sort is stable; [cmp a b] is the comparator's result. *)
Fixpoint sort_insert {A} (cmp : A → A → Z) (x : A) (l : list A) : list A :=
  match l with
  | [] => [x]
  | y :: l' =>
      if bool_decide (cmp x y ≤ 0) then x :: y :: l' else y :: sort_insert cmp x l'
  end.

Definition sort {A} (cmp : A → A → Z) (l : list A) : list A :=
  foldr (sort_insert cmp) [] l.

(** [a.localeCompare(b)] on two timestamps of the same format. *)
Definition localeCompare (a b : Time) : Z :=
  match a ?= b with Lt => -1 | Eq => 0 | Gt => 1 end.

(** The non-null assertion [x!] on a timestamp field; every use follows a
    filter that keeps the entries where the field is present. *)
Definition nonnull (o : option Time) : Time := default 0 o.

(** [s.includes(sub)] *)
Fixpoint includes (s sub : string) : bool :=
  String.prefix sub s ||
  match s with
  | EmptyString => false
  | String _ s' => includes s' sub
  end.

(** [s.replace(/pat/, rep)] for a literal pattern: the first occurrence. *)
Fixpoint replace_first (pat rep s : string) : string :=
  if String.prefix pat s then rep +:+ String.substring (String.length pat) (String.length s - String.length pat) s
  else match s with
       | EmptyString => EmptyString
       | String c s' => String c (replace_first pat rep s')
       end.

Definition newline : string := String (Ascii.ascii_of_nat 10) EmptyString.

Definition marker_name (m : Marker) : string :=
  match m with
  | STALE_PR => "STALE PR"
  | MERGE_CONFLICTS => "MERGE CONFLICTS"
  end.

Definition marker (m : Marker) : string := "<!--" +:+ marker_name m +:+ "-->".

(** ** [reviewState], [lastCommit], [mostRecentWarnings], [memberReviewed] *)

Definition reviewState (reviews : list Review.t) : option ReviewState.t :=
  let memberReviews :=
    filter (λ r, is_Some (Review.submitted_at r))
      (filter (λ r, Review.author_association r = "MEMBER") reviews) in
  let memberReviews :=
    sort (λ a b, localeCompare (nonnull (Review.submitted_at a))
                               (nonnull (Review.submitted_at b))) memberReviews in
  let cr := filter (λ r, Review.state r = "CHANGES_REQUESTED") memberReviews in
  let approved := filter (λ r, Review.state r = "APPROVED") memberReviews in
  match last cr with
  | Some r =>
      Some (ReviewState.mk ReviewState.changes_requested (nonnull (Review.submitted_at r)))
  | None =>
      match head approved with
      | Some r => Some (ReviewState.mk ReviewState.approved (nonnull (Review.submitted_at r)))
      | None => None
      end
  end.

Definition lastCommit (commits : list Commit.t) : option Time :=
  let commitTimes := omap Commit.committer_date commits in
  last commitTimes.

(** A [Map<Marker, Date>]. *)
Definition Warnings := Marker → option Time.

Definition Warnings_empty : Warnings := λ _, None.
Definition Warnings_has (m : Marker) (w : Warnings) : bool := bool_decide (is_Some (w m)).
Definition Warnings_set (m : Marker) (t : Time) (w : Warnings) : Warnings :=
  λ m', if decide (m' = m) then Some t else w m'.

Definition body_includes (comment : Comment.t) (sub : string) : bool :=
  match Comment.body comment with
  | Some b => includes b sub
  | None => false
  end.

Definition mostRecentWarnings (comments : list Comment.t) : Warnings :=
  foldl (λ ret comment,
           foldl (λ ret m,
                    if body_includes comment (marker m) && negb (Warnings_has m ret)
                    then Warnings_set m (Comment.created_at comment) ret
                    else ret)
                 ret [STALE_PR; MERGE_CONFLICTS])
        Warnings_empty (reverse comments).

Definition memberReviewed (reviews : list Review.t) (comments : list Comment.t) : bool :=
  let memberReviews :=
    filter (λ r, is_Some (Review.submitted_at r))
      (filter (λ r, Review.author_association r = "MEMBER") reviews) in
  let memberComments :=
    filter (λ r, is_Some (Comment.submitted_at r))
      (filter (λ r, Comment.author_association r = "MEMBER") comments) in
  bool_decide (0 < length memberComments)%nat || bool_decide (0 < length memberReviews)%nat.

(** ** Configuration, metrics and the effects of a run *)

Module StalePrFinderProps.
Record t := mk {
  staleDays : Z;
  responseDays : Z;
  mergeConflictWarningDays : option Z;
  mergeConflictWarning : option string;
  importantChecksRegex : option (string → bool);
  skipLabels : option (list string);
  warnMessage : option string;
  closeMessage : option string;
  closeLabel : option string;
  dryRun : bool;
}.
End StalePrFinderProps.

Record Metrics := {
  prsProcessed : nat;
  skipped : nat;
  stalePrs : nat;
  staleDueToChangesRequested : nat;
  staleDueToBuildFailing : nat;
  staleDueToMergeConflicts : nat;
  warned : nat;
  closed : nat;
}.

Definition Metrics_zero : Metrics := Build_Metrics 0 0 0 0 0 0 0 0.

(** The counters that [findAll] and [performAction] increment. *)
Inductive Counter :=
| c_prsProcessed | c_skipped | c_stalePrs | c_staleDueToChangesRequested
| c_staleDueToBuildFailing | c_staleDueToMergeConflicts | c_warned | c_closed.

Definition increment (c : Counter) (m : Metrics) : Metrics :=
  let '(Build_Metrics p sk st cr bf mc w cl) := m in
  match c with
  | c_prsProcessed => Build_Metrics (S p) sk st cr bf mc w cl
  | c_skipped => Build_Metrics p (S sk) st cr bf mc w cl
  | c_stalePrs => Build_Metrics p sk (S st) cr bf mc w cl
  | c_staleDueToChangesRequested => Build_Metrics p sk st (S cr) bf mc w cl
  | c_staleDueToBuildFailing => Build_Metrics p sk st cr (S bf) mc w cl
  | c_staleDueToMergeConflicts => Build_Metrics p sk st cr bf (S mc) w cl
  | c_warned => Build_Metrics p sk st cr bf mc (S w) cl
  | c_closed => Build_Metrics p sk st cr bf mc w (S cl)
  end.

(** What a run does to the outside: the three mutating calls of the
    hosting API, and the lines the dry-run mode prints in their place. *)
Inductive Call :=
| createComment (issue_number : Z) (body : string)
| addLabelsCall (issue_number : Z) (labels : list string)
| updateClosed (issue_number : Z)
| consoleLog (line : string).

Record World := { metrics : Metrics; calls : list Call }.

Definition World_init : World := {| metrics := Metrics_zero; calls := [] |}.

(** A small state monad over [World]. *)
Definition M (A : Type) : Type := World → A * World.

Global Instance M_ret : MRet M := λ A a w, (a, w).
Global Instance M_bind : MBind M :=
  λ A B k m w, let '(a, w') := m w in k a w'.

Definition count (c : Counter) : M unit :=
  λ w, (tt, {| metrics := increment c (metrics w); calls := calls w |}).

Definition perform (c : Call) : M unit :=
  λ w, (tt, {| metrics := metrics w; calls := calls w ++ [c] |}).

Fixpoint forEach {A} (body : A → M unit) (xs : list A) : M unit :=
  match xs with
  | [] => mret tt
  | x :: xs' => body x ;; forEach body xs'
  end.

(** What the loop of [findAll] fetches for one pull request, and the value
    [Date.now()] has while it is processed. *)
Module PullObs.
Record t := mk {
  number : Z;
  labels : list Label;
  check_runs : list CheckRun.t;
  statuses : list CommitStatus.t;
  reviews : list Review.t;
  commits : list Commit.t;
  mergeable_state : string;
  comments : list Comment.t;
  now : Time;
}.
End PullObs.

(** ** [class StalePrFinder] *)

Section StalePrFinder.
Variable props : StalePrFinderProps.t.

Definition mergeConflictWarningDays : Z :=
  default 3 (StalePrFinderProps.mergeConflictWarningDays props).

(** *** The three writes *)

Definition addComment (issue_number : Z) (body : string) : M unit :=
  if StalePrFinderProps.dryRun props then
    perform (consoleLog (pretty issue_number +:+ ": COMMENT " +:+ body))
  else
    perform (createComment issue_number body).

Definition addLabels (issue_number : Z) (labels : list string) : M unit :=
  if StalePrFinderProps.dryRun props then
    perform (consoleLog (pretty issue_number +:+ ": ADD LABEL " +:+ String.concat "," labels))
  else
    perform (addLabelsCall issue_number labels).

Definition closeIssue (issue_number : Z) : M unit :=
  if StalePrFinderProps.dryRun props then
    perform (consoleLog (pretty issue_number +:+ ": CLOSE"))
  else
    perform (updateClosed issue_number).

Definition addMergeConflictWarning (pull_number : Z) : M unit :=
  let message :=
    default "This PR cannot be merged because it has conflicts. Please resolve them. The PR will be considered stale and closed if it remains in an unmergeable state."
      (StalePrFinderProps.mergeConflictWarning props) in
  addComment pull_number message.

(** *** Ages *)

Definition olderThanDays (now t : Time) (days : Z) : bool :=
  let ms := days * 24 * 3600 * 1000 in
  bool_decide (t + ms < now).

Definition stale (now t : Time) : bool :=
  olderThanDays now t (StalePrFinderProps.staleDays props).

Definition outOfGracePeriod (now t : Time) : bool :=
  olderThanDays now t (StalePrFinderProps.responseDays props).

(** *** [hasSkipLabel] *)

Definition hasSkipLabel (labels : list Label) : bool :=
  match StalePrFinderProps.skipLabels props with
  | None => false
  | Some skipLabels =>
      existsb (λ l : option string,
                 match l with
                 | Some l => bool_decide (l ≠ "") && bool_decide (l ∈ skipLabels)
                 | None => false
                 end)
        (map (λ l, match l with LabelString l => Some l | LabelObject name => name end)
             labels)
  end.

(** *** [performAction] *)

Definition performAction (pull_number : Z) (action : Action)
    (stale : option Stale) : M unit :=
  match action with
  | nothing => mret tt
  | warn =>
      count c_warned ;;
      let message :=
        match StalePrFinderProps.warnMessage props with
        | Some warnMessage =>
            replace_first "STATE" (from_option reason "" stale) warnMessage
        | None =>
            "This PR has been in " +:+ from_option reason "undefined" stale
            +:+ " for " +:+ pretty (StalePrFinderProps.staleDays props)
            +:+ " days, and looks abandoned. It will be closed in "
            +:+ pretty (StalePrFinderProps.responseDays props)
            +:+ " days if no further commits are pushed to it."
        end in
      addComment pull_number (marker STALE_PR +:+ newline +:+ message)
  | close =>
      count c_closed ;;
      let message :=
        default "No more work is being done on this PR. It will now be closed."
          (StalePrFinderProps.closeMessage props) in
      addComment pull_number message ;;
      match StalePrFinderProps.closeLabel props with
      | Some closeLabel =>
          if bool_decide (closeLabel ≠ "") then addLabels pull_number [closeLabel]
          else mret tt
      | None => mret tt
      end ;;
      closeIssue pull_number
  end.

(** *** The body of the loop of [findAll] *)

(** [buildFailTime] (lines 102-109), with the filter of
    [importantChecksRegex]; the pattern is the predicate [id.match(regex)]
    on names. *)
Definition buildFailTime (failingChecks : gmap string FailedCheck) : option Time :=
  let buildFailTime := maxTime failingChecks in
  match StalePrFinderProps.importantChecksRegex props with
  | Some regex =>
      let importantChecks :=
        fromEntries (filter (λ e, regex e.1 = true) (entries failingChecks)) in
      maxTime importantChecks
  | None => buildFailTime
  end.

(** The chain that assigns [stale] (lines 119-144): the three branches in
    the order of the source, the later ones reached when the earlier
    conditions fail.  The first condition reads [reviewState]; the value
    [changesRequested] of line 99 is only printed. *)
Definition classify (pull_number : Z) (now : Time)
    (reviewState : option ReviewState.t) (lastCommit : option Time)
    (buildFailTime : option Time) (hasMergeConflicts : bool) : M (option Stale) :=
  let else_merge_conflicts : M (option Stale) :=
    if hasMergeConflicts then
      match lastCommit with
      | Some lc =>
          if stale now lc then
            count c_staleDueToMergeConflicts ;;
            mret (Some {| reason := "MERGE CONFLICTS"; since := lc |})
          else if bool_decide (mergeConflictWarningDays ≠ 0)
                  && olderThanDays now lc mergeConflictWarningDays then
            addMergeConflictWarning pull_number ;;
            mret None
          else mret None
      | None => mret None
      end
    else mret None in
  let else_build_failing : M (option Stale) :=
    match buildFailTime with
    | Some bft =>
        if stale now bft then
          count c_staleDueToBuildFailing ;;
          mret (Some {| reason := "BUILD FAILING"; since := bft |})
        else else_merge_conflicts
    | None => else_merge_conflicts
    end in
  match reviewState, lastCommit with
  | Some rs, Some _ =>
      if stale now (ReviewState.when rs) then
        count c_staleDueToChangesRequested ;;
        mret (Some {| reason := "CHANGES REQUESTED"; since := ReviewState.when rs |})
      else else_build_failing
  | _, _ => else_build_failing
  end.

(** The decision on a stale pull request (lines 159-166), from
    [warnings.get('STALE PR')] and the result of [memberReviewed]. *)
Definition decideAction (now : Time) (stale : Stale) (warning : option Time)
    (memberReviewed : bool) : Action :=
  match warning with
  | None => warn
  | Some warning =>
      if bool_decide (warning < since stale) || negb memberReviewed then warn
      else if outOfGracePeriod now warning then close
      else nothing
  end.

(** The computation of [action] (lines 150-167). *)
Definition resolveAction (pull : PullObs.t) (stale : option Stale)
    (warnings : Warnings) : M Action :=
  match stale with
  | Some st =>
      count c_stalePrs ;;
      let memberReviewed := memberReviewed (PullObs.reviews pull) (PullObs.comments pull) in
      let warning := warnings STALE_PR in
      mret (decideAction (PullObs.now pull) st warning memberReviewed)
  | None => mret nothing
  end.

(** One iteration of the loop (lines 78-171).  The comments are read after
    the merge-conflict warning may have been posted; they are used only
    with a verdict, which excludes that warning. *)
Definition processPull (pull : PullObs.t) : M unit :=
  count c_prsProcessed ;;
  if hasSkipLabel (PullObs.labels pull) then
    count c_skipped
  else
    let failingChecks := failingChecks (PullObs.check_runs pull) (PullObs.statuses pull) in
    let reviewState := reviewState (PullObs.reviews pull) in
    let lastCommit := lastCommit (PullObs.commits pull) in
    let hasMergeConflicts := bool_decide (PullObs.mergeable_state pull = "dirty") in
    let buildFailTime := buildFailTime failingChecks in
    stale ← classify (PullObs.number pull) (PullObs.now pull)
              reviewState lastCommit buildFailTime hasMergeConflicts;
    let warnings := mostRecentWarnings (PullObs.comments pull) in
    action ← resolveAction pull stale warnings;
    performAction (PullObs.number pull) action stale.

Definition findAll (pulls : list PullObs.t) : M unit :=
  forEach processPull (reverse pulls).

End StalePrFinder.

(** ** Constants of the scenarios *)

Definition day : Z := 24 * 3600 * 1000.

Definition props0 : StalePrFinderProps.t :=
  StalePrFinderProps.mk 21 10 None None None None None None None false.

(** ** [index.ts]: the inputs of the action

    A JavaScript number that [parseInt] returns is [NaN] or an integer; the
    embedding is exact for inputs of at most 15 characters, whose values
    are below [2^53]. *)

Inductive JsNumber := NaN | Int (z : Z).

(** [`${num}`] *)
Definition Number_toString (num : JsNumber) : string :=
  match num with
  | NaN => "NaN"
  | Int z => pretty z
  end.

Definition digit_value (c : Ascii.ascii) : option N :=
  let n := Ascii.N_of_ascii c in
  if bool_decide (48 ≤ n ∧ n ≤ 57)%N then Some (n - 48)%N else None.

(** The white space [parseInt] skips, within ASCII. *)
Definition is_white_space (c : Ascii.ascii) : bool :=
  let n := Ascii.N_of_ascii c in
  bool_decide (n = 9 ∨ n = 10 ∨ n = 11 ∨ n = 12 ∨ n = 13 ∨ n = 32)%N.

Fixpoint trim_start (s : string) : string :=
  match s with
  | String c s' => if is_white_space c then trim_start s' else s
  | EmptyString => EmptyString
  end.

(** The value of the longest prefix of decimal digits, after [acc]. *)
Fixpoint parse_digits (acc : N) (s : string) : N :=
  match s with
  | String c s' =>
      match digit_value c with
      | Some d => parse_digits (acc * 10 + d) s'
      | None => acc
      end
  | EmptyString => acc
  end.

(** [parseInt(x, 10)]: leading white space, an optional sign, then the
    digits up to the first other character; [NaN] without a digit. *)
Definition parseInt (x : string) : JsNumber :=
  let trimmed := trim_start x in
  let '(sign, digits) :=
    match trimmed with
    | String "-"%char rest => (-1, rest)
    | String "+"%char rest => (1, rest)
    | _ => (1, trimmed)
    end in
  match digits with
  | String c _ =>
      if bool_decide (is_Some (digit_value c))
      then Int (sign * Z.of_N (parse_digits 0 digits))
      else NaN
  | EmptyString => NaN
  end.

(** [verifyInt]: [inl] is the message of the error thrown. *)
Definition verifyInt (x : string) : string + JsNumber :=
  let num := parseInt x in
  if bool_decide (Number_toString num ≠ x) then inl ("Not a number: " +:+ x)
  else inr num.

(** [s.split(',')] *)
Fixpoint split_comma (s : string) : list string :=
  match s with
  | EmptyString => [EmptyString]
  | String c s' =>
      if bool_decide (c = ","%char) then EmptyString :: split_comma s'
      else match split_comma s' with
           | piece :: pieces => String c piece :: pieces
           | [] => [String c EmptyString]
           end
  end.

(** The optional inputs as [core.getInput] returns them, empty when not
    supplied, and the two required numbers. *)
Module Inputs.
Record t := mk {
  stale_days : string;
  response_days : string;
  important_checks_regex : string;
  skip_labels : string;
  warn_message : string;
  close_message : string;
  close_label : string;
}.
End Inputs.

(** The object literal that [run] passes to the constructor, [owner] and
    [repo] apart: it has no [dryRun], no [mergeConflictWarningDays] and no
    [mergeConflictWarning]. *)
Module RunProps.
Record t := mk {
  staleDays : JsNumber;
  responseDays : JsNumber;
  importantChecksRegex : option (string → bool);
  skipLabels : option (list string);
  warnMessage : option string;
  closeMessage : option string;
  closeLabel : option string;
}.
End RunProps.

(** [s ? f(s) : undefined] on a string. *)
Definition if_nonempty {A} (s : string) (f : string → A) : option A :=
  if bool_decide (s ≠ "") then Some (f s) else None.

Section run.
(** [new RegExp(pattern)]: the predicate [id.match(regex)] of the compiled
    pattern, or the message of the [SyntaxError]. *)
Variable RegExp : string → string + (string → bool).

(** The properties of the object literal of [run], in the order in which
    they are evaluated; [inl] is the message of the first error thrown. *)
Definition runProps (inputs : Inputs.t) : string + RunProps.t :=
  match verifyInt (Inputs.stale_days inputs) with
  | inl message => inl message
  | inr staleDays =>
      match verifyInt (Inputs.response_days inputs) with
      | inl message => inl message
      | inr responseDays =>
          let make regex :=
            inr (RunProps.mk staleDays responseDays regex
                   (if_nonempty (Inputs.skip_labels inputs) split_comma)
                   (if_nonempty (Inputs.warn_message inputs) id)
                   (if_nonempty (Inputs.close_message inputs) id)
                   (if_nonempty (Inputs.close_label inputs) id)) in
          if bool_decide (Inputs.important_checks_regex inputs ≠ "") then
            match RegExp (Inputs.important_checks_regex inputs) with
            | inl message => inl message
            | inr regex => make (Some regex)
            end
          else make None
      end
  end.
End run.

(** The configuration of the finder for an object literal whose two
    numbers are integers; the properties the literal lacks are undefined. *)
Definition finderProps (p : RunProps.t) : option StalePrFinderProps.t :=
  match RunProps.staleDays p, RunProps.responseDays p with
  | Int staleDays, Int responseDays =>
      Some (StalePrFinderProps.mk staleDays responseDays None None
              (RunProps.importantChecksRegex p) (RunProps.skipLabels p)
              (RunProps.warnMessage p) (RunProps.closeMessage p)
              (RunProps.closeLabel p) false)
  | _, _ => None
  end.

(** ** Counting the calls of a trace *)

Definition is_createComment (c : Call) : bool :=
  match c with createComment _ _ => true | _ => false end.

Definition is_updateClosed (c : Call) : bool :=
  match c with updateClosed _ => true | _ => false end.

Definition count_calls (kind : Call → bool) (trace : list Call) : nat :=
  length (filter (λ c, kind c = true) trace).

(** The pull request a mutating call is made on. *)
Definition call_target (c : Call) : option Z :=
  match c with
  | createComment n _ | addLabelsCall n _ | updateClosed n => Some n
  | consoleLog _ => None
  end.

(** ** Vocabulary of the statements *)

(** The world after [count c] and after [perform c]. *)
Definition counted (c : Counter) (w : World) : World :=
  {| metrics := increment c (metrics w); calls := calls w |}.

Definition called (c : Call) (w : World) : World :=
  {| metrics := metrics w; calls := calls w ++ [c] |}.

(** The configuration with the dry-run switch set to [b]. *)
Definition with_dryRun (b : bool) (p : StalePrFinderProps.t) : StalePrFinderProps.t :=
  StalePrFinderProps.mk
    (StalePrFinderProps.staleDays p) (StalePrFinderProps.responseDays p)
    (StalePrFinderProps.mergeConflictWarningDays p)
    (StalePrFinderProps.mergeConflictWarning p)
    (StalePrFinderProps.importantChecksRegex p)
    (StalePrFinderProps.skipLabels p) (StalePrFinderProps.warnMessage p)
    (StalePrFinderProps.closeMessage p) (StalePrFinderProps.closeLabel p) b.

(** The line the dry-run mode prints in place of a mutating call. *)
Definition dry_line (c : Call) : Call :=
  match c with
  | createComment n body => consoleLog (pretty n +:+ ": COMMENT " +:+ body)
  | addLabelsCall n labels =>
      consoleLog (pretty n +:+ ": ADD LABEL " +:+ String.concat "," labels)
  | updateClosed n => consoleLog (pretty n +:+ ": CLOSE")
  | consoleLog line => consoleLog line
  end.

(** What a write of the call [c] appends to the trace: the call, or its
    line in the dry-run mode. *)
Definition emitted (props : StalePrFinderProps.t) (c : Call) : Call :=
  if StalePrFinderProps.dryRun props then dry_line c else c.

(** The writes [new] of one iteration on the pull request [n], with the
    counters before and after: nothing; one comment; or the comment, the
    optional label and the closing of [close]. *)
Definition iteration_writes (props : StalePrFinderProps.t) (n : Z)
    (m m' : Metrics) (new : list Call) : Prop :=
  (new = [] ∧ warned m' = warned m ∧ closed m' = closed m ∧
   (skipped m' ≤ S (skipped m))%nat)
  ∨ (∃ body, new = [createComment n body] ∧ closed m' = closed m ∧
       (warned m ≤ warned m' ≤ S (warned m))%nat ∧ skipped m' = skipped m)
  ∨ (∃ body, new = [createComment n body; updateClosed n] ∧
       closed m' = S (closed m) ∧ warned m' = warned m ∧ skipped m' = skipped m)
  ∨ (∃ body l, StalePrFinderProps.closeLabel props = Some l ∧ l ≠ "" ∧
       new = [createComment n body; addLabelsCall n [l]; updateClosed n] ∧
       closed m' = S (closed m) ∧ warned m' = warned m ∧ skipped m' = skipped m).

Definition is_mutating (c : Call) : bool :=
  match c with
  | consoleLog _ => false
  | _ => true
  end.

(** The world of a dry run that corresponds to the world [wr] of a real
    run: the same counters, every mutating call replaced by its line. *)
Definition dry_of (wd wr : World) : Prop :=
  metrics wd = metrics wr ∧
  calls wd = dry_line <$> calls wr ∧
  Forall (λ c, is_mutating c = true) (calls wr).

(** The invariant of the counters. *)
Definition Metrics_consistent (m : Metrics) : Prop :=
  (stalePrs m = staleDueToChangesRequested m + staleDueToBuildFailing m
                + staleDueToMergeConflicts m)%nat ∧
  (warned m + closed m ≤ stalePrs m)%nat ∧
  (skipped m ≤ prsProcessed m)%nat.

(** Following the words of the specification, for comparison with
    [memberReviewed]: a member has engaged since the last warning when a
    member review was submitted, or a member comment created, after it. *)
Definition memberEngagedSince (reviews : list Review.t) (comments : list Comment.t)
    (warning : Time) : bool :=
  existsb (λ r, bool_decide (Review.author_association r = "MEMBER")
                && js_gt (Review.submitted_at r) (Some warning)) reviews
  || existsb (λ c, bool_decide (Comment.author_association c = "MEMBER")
                   && bool_decide (warning < Comment.created_at c)) comments.

(** A result of either source: a check run or a commit status. *)
Module CheckResult.
Record t := mk { name : string; failure : bool; at_time : option Time }.
End CheckResult.

(** Following the words of the specification, for comparison with
    [failingChecks]: the results of the two sources as one stream, reduced
    to the most recent result of each name across both, of which the
    failures are kept. *)
Definition failingChecks_across_sources (check_runs : list CheckRun.t)
    (statuses : list CommitStatus.t) : gmap string FailedCheck :=
  let results :=
    (map (λ c, CheckResult.mk (CheckRun.name c)
                 (bool_decide (CheckRun.conclusion c = Some "failure"))
                 (CheckRun.completed_at c)) check_runs
     ++ map (λ s, CheckResult.mk (CommitStatus.context s)
                    (bool_decide (CommitStatus.state s = "failure"))
                    (CommitStatus.updated_at s)) statuses)%list in
  fromEntries
    (omap (λ r, if CheckResult.failure r
                then t ← CheckResult.at_time r; Some (CheckResult.name r, {| when := t |})
                else None)
          (values (mostRecent CheckResult.name CheckResult.at_time results))).

(** A dry-run computation [md] simulates a real computation [mr]: from
    corresponding worlds they return the same value in corresponding
    worlds. *)
Definition simulates {A} (md mr : M A) : Prop :=
  ∀ wd wr, dry_of wd wr →
    (md wd).1 = (mr wr).1 ∧ dry_of (md wd).2 (mr wr).2.

(** ** Pull requests of the scenarios *)

Definition T0 : Time := 1000 * day.

Definition stale_warning_comment (at_time : Time) : Comment.t :=
  Comment.mk (Some (marker STALE_PR +:+ newline +:+ "This PR looks abandoned."))
    at_time "NONE" None.

(** A member requested changes 30 days ago, the last commit is 40 days old. *)
Definition pull_changes_requested (comments : list Comment.t) : PullObs.t :=
  PullObs.mk 7 [] [] []
    [Review.mk "MEMBER" "CHANGES_REQUESTED" (Some (T0 - 30 * day))]
    [Commit.mk (Some (T0 - 40 * day))] "clean" comments T0.

(** As above, and a member left a review comment 2 days ago, after the
    warning of 5 days ago. *)
Definition pull_member_engaged_after_warning : PullObs.t :=
  PullObs.mk 7 [] [] []
    [Review.mk "MEMBER" "CHANGES_REQUESTED" (Some (T0 - 30 * day));
     Review.mk "MEMBER" "COMMENTED" (Some (T0 - 2 * day))]
    [Commit.mk (Some (T0 - 40 * day))] "clean"
    [stale_warning_comment (T0 - 5 * day)] T0.

(** As [pull_changes_requested], and the member who requested the changes
    left a comment 2 days ago, after the warning of 5 days ago. *)
Definition pull_member_commented_after_warning : PullObs.t :=
  pull_changes_requested
    [stale_warning_comment (T0 - 5 * day);
     Comment.mk (Some "Any update on this?") (T0 - 2 * day) "MEMBER" None].

(** Only a contributor's build fails; no member ever reviewed. *)
Definition pull_no_member (comments : list Comment.t) : PullObs.t :=
  PullObs.mk 8 [] [CheckRun.mk "build" (Some "failure") (Some (T0 - 25 * day))] []
    [] [Commit.mk (Some (T0 - 40 * day))] "clean" comments T0.

(** A member approved 30 days ago. *)
Definition pull_approved : PullObs.t :=
  PullObs.mk 11 [] [] []
    [Review.mk "MEMBER" "APPROVED" (Some (T0 - 30 * day))]
    [Commit.mk (Some (T0 - 40 * day))] "clean" [] T0.


(** * Properties *)

Example failingChecks_ex1 :
  failingChecks
    [CheckRun.mk "build" (Some "failure") (Some 10);
     CheckRun.mk "build" (Some "success") (Some 20);
     CheckRun.mk "lint" (Some "failure") (Some 7)]
    [CommitStatus.mk "codebuild" "failure" (Some 3)]
  = {[ "lint" := {| when := 7 |}; "codebuild" := {| when := 3 |} ]}.
Proof. apply map_eq. intros k. vm_compute. reflexivity. Qed.


(** ** Dictionaries built from entry lists *)

Section entries.
Context {V : Type}.
Implicit Types (es : list (string * V)) (m : gmap string V).

Lemma fromEntries_snoc es e :
  fromEntries (es ++ [e]) = <[e.1 := e.2]> (fromEntries es).
Proof. unfold fromEntries. by rewrite foldl_snoc. Qed.

Lemma fromEntries_lookup_Some es k v :
  NoDup es.*1 → fromEntries es !! k = Some v ↔ (k, v) ∈ es.
Proof.
  induction es as [|[k' v'] es IH] using rev_ind; intros Hnd.
  - unfold fromEntries; simpl. rewrite lookup_empty.
    split; [done | by intros ?%elem_of_nil].
  - rewrite fmap_app in Hnd. apply NoDup_app in Hnd as (Hnd & Hfresh & _).
    rewrite fromEntries_snoc, elem_of_app, list_elem_of_singleton; simpl.
    destruct (decide (k' = k)) as [->|Hne].
    + rewrite lookup_insert_eq. split.
      * intros [= ->]. by right.
      * intros [Hin|[= ->]]; [|done].
        exfalso. apply (Hfresh k); [|simpl; left].
        apply list_elem_of_fmap. by exists (k, v).
    + rewrite lookup_insert_ne by done. rewrite IH by done.
      split; [by left | intros [?|[= -> ->]]; done].
Qed.

Lemma fromEntries_filter_entries (P : string * V → Prop)
    `{!∀ e, Decision (P e)} m :
  fromEntries (filter P (entries m)) = filter P m.
Proof.
  apply map_eq; intros k. apply option_eq; intros v.
  rewrite fromEntries_lookup_Some.
  - unfold entries.
    rewrite list_elem_of_filter, elem_of_map_to_list, map_lookup_filter_Some.
    tauto.
  - eapply sublist_NoDup; [apply (NoDup_fst_map_to_list m)|].
    apply fmap_sublist, sublist_filter.
Qed.
End entries.

(** The entries computed from the values of a dictionary whose keys are
    the names of its values. *)
Lemma omap_values_keys_sublist {A V} (f : A → option (string * V))
    (l : list (string * A)) :
  (∀ k x p, (k, x) ∈ l → f x = Some p → p.1 = k) →
  (omap f l.*2).*1 `sublist_of` l.*1.
Proof.
  induction l as [|[k x] l IH]; intros Hkey; simpl; [constructor|].
  assert ((omap f l.*2).*1 `sublist_of` l.*1) as IH'.
  { apply IH. intros k' x' p Hin. apply Hkey. by right. }
  destruct (f x) as [p|] eqn:Hfx; simpl.
  - rewrite (Hkey k x p); [by constructor | by left | done].
  - by constructor.
Qed.

Lemma fromEntries_omap_values {A V} (f : A → option (string * V))
    (m : gmap string A) (k : string) :
  (∀ k x p, m !! k = Some x → f x = Some p → p.1 = k) →
  fromEntries (omap f (values m)) !! k = (x ← m !! k; p ← f x; Some p.2).
Proof.
  intros Hkey. apply option_eq; intros v.
  rewrite fromEntries_lookup_Some.
  - rewrite list_elem_of_omap. unfold values. split.
    + intros (x & Hx & Hfx).
      apply list_elem_of_fmap in Hx as ([k' x'] & -> & Hin); simpl in *.
      apply elem_of_map_to_list in Hin.
      pose proof (Hkey k' x' (k, v) Hin Hfx) as Hk; simpl in Hk; subst k'.
      rewrite Hin; simpl. by rewrite Hfx.
    + destruct (m !! k) as [x|] eqn:Hm; simpl; [|done].
      destruct (f x) as [p|] eqn:Hfx; simpl; [|done].
      intros [= <-]. exists x. split.
      * apply list_elem_of_fmap. exists (k, x). split; [done|].
        by apply elem_of_map_to_list.
      * rewrite Hfx. f_equal. destruct p as [k' v']; simpl.
        f_equal. apply (Hkey k x (k', v') Hm Hfx).
  - eapply sublist_NoDup; [apply (NoDup_fst_map_to_list m)|].
    apply omap_values_keys_sublist.
    intros k' x p Hin. apply Hkey. by apply elem_of_map_to_list.
Qed.

(** ** [mostRecent] *)

Section mostRecent.
Context {A : Type} (idKey : A → string) (timeKey : A → option Time).

Lemma get_own (ret : gmap string A) k x : ret !! k = Some x → get ret k = own x.
Proof. unfold get. by intros ->. Qed.

Lemma get_undefined (ret : gmap string A) k :
  ret !! k = None → k ∉ Object_prototype → get ret k = undefined.
Proof. unfold get. intros -> Hk. by rewrite bool_decide_eq_false_2. Qed.

Lemma get_inherited (ret : gmap string A) k :
  ret !! k = None → k ∈ Object_prototype → get ret k = inherited.
Proof. unfold get. intros -> Hk. by rewrite bool_decide_eq_true_2. Qed.

Lemma mostRecent_snoc xs x :
  mostRecent idKey timeKey (xs ++ [x]) =
    let ret := mostRecent idKey timeKey xs in
    match get ret (idKey x) with
    | undefined => <[idKey x := x]> ret
    | own old =>
        if js_gt (timeKey x) (timeKey old) then <[idKey x := x]> ret else ret
    | inherited => ret
    end.
Proof. unfold mostRecent. by rewrite foldl_snoc. Qed.

Lemma js_gt_trans_false a b c :
  js_gt a b = false → js_gt c b = true → js_gt a c = false.
Proof.
  destruct a as [a|], b as [b|], c as [c|]; simpl; try done.
  rewrite !bool_decide_eq_false, bool_decide_eq_true. lia.
Qed.

(** No name of a member of [Object.prototype] has an entry. *)
Lemma mostRecent_inherited xs k :
  k ∈ Object_prototype → mostRecent idKey timeKey xs !! k = None.
Proof.
  intros Hk. induction xs as [|u xs IH] using rev_ind.
  { unfold mostRecent; simpl. apply lookup_empty. }
  rewrite mostRecent_snoc; simpl.
  destruct (decide (idKey u = k)) as [->|Hne].
  - by rewrite (get_inherited _ _ IH Hk).
  - destruct (get _ _); [destruct (js_gt _ _)| |];
      by rewrite ?lookup_insert_ne.
Qed.

(** Every other name of the list has an entry. *)
Lemma mostRecent_is_Some xs y :
  y ∈ xs → idKey y ∉ Object_prototype →
  is_Some (mostRecent idKey timeKey xs !! idKey y).
Proof.
  induction xs as [|u xs IH] using rev_ind; [by intros ?%elem_of_nil|].
  intros Hy Hown. rewrite mostRecent_snoc; simpl.
  destruct (decide (idKey u = idKey y)) as [Heq|Hne].
  - rewrite <- Heq in Hown |- *.
    destruct (mostRecent idKey timeKey xs !! idKey u) as [o|] eqn:Ho.
    + rewrite (get_own _ _ _ Ho).
      destruct (js_gt _ _); [rewrite lookup_insert_eq|rewrite Ho]; eauto.
    + rewrite (get_undefined _ _ Ho Hown), lookup_insert_eq; eauto.
  - apply elem_of_app in Hy as [Hy| ->%list_elem_of_singleton]; [|done].
    destruct (get _ _); [destruct (js_gt _ _)| |];
      rewrite ?lookup_insert_ne by done; eauto.
Qed.

Lemma js_gt_irrefl a : js_gt a a = false.
Proof. destruct a; simpl; [|done]. apply bool_decide_eq_false. lia. Qed.

(** The entry of a name is an element of the list with that name, and no
    element with that name is more recent. *)
Lemma mostRecent_lookup_Some xs k x :
  mostRecent idKey timeKey xs !! k = Some x →
  x ∈ xs ∧ idKey x = k ∧
  ∀ y, y ∈ xs → idKey y = k → js_gt (timeKey y) (timeKey x) = false.
Proof.
  revert x. induction xs as [|z xs IH] using rev_ind; intros x.
  { unfold mostRecent; simpl. by rewrite lookup_empty. }
  rewrite mostRecent_snoc; simpl.
  assert (∀ x, mostRecent idKey timeKey xs !! k = Some x →
               idKey z ≠ k ∨ js_gt (timeKey z) (timeKey x) = false →
               x ∈ (xs ++ [z])%list ∧ idKey x = k ∧
               ∀ y, y ∈ (xs ++ [z])%list → idKey y = k →
                    js_gt (timeKey y) (timeKey x) = false) as Hkeep.
  { intros x' Hx' Hz. destruct (IH x' Hx') as (Hin & Hk & Hmax).
    split; [apply elem_of_app; by left|]. split; [done|].
    intros y [Hy| ->%list_elem_of_singleton]%elem_of_app Hk'; [eauto|].
    by destruct Hz. }
  assert (∀ old, idKey z = k →
               mostRecent idKey timeKey xs !! idKey z = Some old →
               js_gt (timeKey z) (timeKey old) = true →
               ∀ y, y ∈ (xs ++ [z])%list → idKey y = idKey z →
                    js_gt (timeKey y) (timeKey z) = false) as Hreplace.
  { intros old Hz Hold Hgt y [Hy| ->%list_elem_of_singleton]%elem_of_app Hk.
    - rewrite Hz in Hold, Hk. destruct (IH old Hold) as (_ & _ & Hmax).
      eapply js_gt_trans_false; [by apply Hmax | done].
    - apply js_gt_irrefl. }
  unfold get.
  destruct (mostRecent idKey timeKey xs !! idKey z) as [old|] eqn:Hold.
  - destruct (js_gt (timeKey z) (timeKey old)) eqn:Hgt.
    + destruct (decide (idKey z = k)) as [<-|Hne].
      * rewrite lookup_insert_eq. intros [= <-].
        split; [apply elem_of_app; right; by apply list_elem_of_singleton|].
        split; [done|]. by apply (Hreplace old).
      * rewrite lookup_insert_ne by done. intros Hx. apply Hkeep; auto.
    + intros Hx. apply Hkeep; [done|].
      destruct (decide (idKey z = k)) as [<-|Hne]; [|by left].
      right. congruence.
  - case_bool_decide as Hproto.
    + intros Hx. apply Hkeep; [done|].
      destruct (decide (idKey z = k)) as [<-|Hne]; [|by left]. congruence.
    + destruct (decide (idKey z = k)) as [<-|Hne].
      * rewrite lookup_insert_eq. intros [= <-].
        split; [apply elem_of_app; right; by apply list_elem_of_singleton|].
        split; [done|].
        intros y [Hy| ->%list_elem_of_singleton]%elem_of_app Hk.
        -- rewrite <- Hk in Hproto.
           apply mostRecent_is_Some in Hy as [o Ho]; [|done]. congruence.
        -- apply js_gt_irrefl.
      * rewrite lookup_insert_ne by done. intros Hx. apply Hkeep; auto.
Qed.

Lemma mostRecent_lookup_None xs k :
  mostRecent idKey timeKey xs !! k = None →
  k ∈ Object_prototype ∨ ∀ y, y ∈ xs → idKey y ≠ k.
Proof.
  intros Hnone. destruct (decide (k ∈ Object_prototype)) as [|Hown]; [by left|].
  right. intros y Hy <-. apply mostRecent_is_Some in Hy as [o Ho]; [|done].
  congruence.
Qed.
End mostRecent.

(** ** [failingChecks] *)

Lemma failedCheckRun_Some c p :
  failedCheckRun c = Some p ↔
  CheckRun.conclusion c = Some "failure" ∧ p.1 = CheckRun.name c ∧
  CheckRun.completed_at c = Some (when p.2).
Proof.
  unfold failedCheckRun. destruct p as [k [t]]; simpl.
  case_bool_decide as Hfail; [|by split; [|intros [? _]]].
  destruct (CheckRun.completed_at c) as [t'|].
  - split; [by intros [= <- <-]|]. by intros (_ & -> & [= ->]).
  - split; [done|]. by intros (_ & _ & ?).
Qed.

Lemma failedStatus_Some s p :
  failedStatus s = Some p ↔
  CommitStatus.state s = "failure" ∧ p.1 = CommitStatus.context s ∧
  CommitStatus.updated_at s = Some (when p.2).
Proof.
  unfold failedStatus. destruct p as [k [t]]; simpl.
  case_bool_decide as Hfail; [|by split; [|intros [? _]]].
  destruct (CommitStatus.updated_at s) as [t'|].
  - split; [by intros [= <- <-]|]. by intros (_ & -> & [= ->]).
  - split; [done|]. by intros (_ & _ & ?).
Qed.

(** The entry of a name: the failing most recent status of that name when
    there is one, else the failing most recent check run of that name. *)
Lemma failingChecks_lookup check_runs statuses n :
  failingChecks check_runs statuses !! n =
    match s ← mostRecent CommitStatus.context CommitStatus.updated_at statuses !! n;
          p ← failedStatus s; Some p.2 with
    | Some fc => Some fc
    | None =>
        c ← mostRecent CheckRun.name CheckRun.completed_at check_runs !! n;
        p ← failedCheckRun c; Some p.2
    end.
Proof.
  unfold failingChecks, assign. rewrite (right_id_L ∅ (∪)), lookup_union.
  rewrite !fromEntries_omap_values.
  - by destruct (_ ≫= _) as [fc|], (_ ≫= _) as [fc'|].
  - intros k c p Hc (_ & -> & _)%failedCheckRun_Some.
    by apply mostRecent_lookup_Some in Hc as (_ & ? & _).
  - intros k s p Hs (_ & -> & _)%failedStatus_Some.
    by apply mostRecent_lookup_Some in Hs as (_ & ? & _).
Qed.

(** ** [maxTime] *)

Lemma foldl_max_elem_of t ts : foldl Z.max t ts ∈ t :: ts.
Proof.
  revert t. induction ts as [|u ts IH]; intros t; simpl; [by left|].
  pose proof (IH (Z.max t u)) as Hin. apply elem_of_cons in Hin as [Heq|Hin].
  - rewrite Heq. destruct (Z.max_spec t u) as [[_ ->]|[_ ->]].
    + right; by left.
    + by left.
  - right; by right.
Qed.

Lemma foldl_max_upper_bound t ts x : x ∈ t :: ts → x ≤ foldl Z.max t ts.
Proof.
  revert t x. induction ts as [|u ts IH]; intros t x; simpl.
  - intros ->%list_elem_of_singleton. lia.
  - assert (∀ v, v ≤ Z.max t u → v ≤ foldl Z.max (Z.max t u) ts) as Hle.
    { intros v Hv. etrans; [exact Hv|]. apply IH. by left. }
    intros [->|[->|Hin]%elem_of_cons]%elem_of_cons.
    + apply Hle. lia.
    + apply Hle. lia.
    + apply IH. by right.
Qed.

Lemma elem_of_when_values (xs : gmap string FailedCheck) t :
  t ∈ when <$> values xs ↔ ∃ n c, xs !! n = Some c ∧ when c = t.
Proof.
  unfold values. rewrite list_elem_of_fmap. split.
  - intros (c & -> & ([n c'] & -> & Hin%elem_of_map_to_list)%list_elem_of_fmap).
    by exists n, c'.
  - intros (n & c & Hc & <-). exists c. split; [done|].
    apply list_elem_of_fmap. exists (n, c). split; [done|].
    by apply elem_of_map_to_list.
Qed.

Lemma maxTime_None xs : maxTime xs = None ↔ xs = ∅.
Proof.
  unfold maxTime, values. split.
  - destruct (map_to_list xs) as [|e es] eqn:Hl; [|done].
    intros _. by apply map_to_list_empty_iff.
  - intros ->. by rewrite map_to_list_empty.
Qed.

(** [maxTime] is the time of one of the entries, and no entry is later. *)
Lemma maxTime_Some xs t :
  maxTime xs = Some t ↔
  (∃ n c, xs !! n = Some c ∧ when c = t) ∧
  (∀ n c, xs !! n = Some c → when c ≤ t).
Proof.
  assert (∀ t', maxTime xs = Some t' →
                (∃ n c, xs !! n = Some c ∧ when c = t') ∧
                (∀ n c, xs !! n = Some c → when c ≤ t')) as Hsound.
  { intros t'. unfold maxTime.
    destruct (when <$> values xs) as [|u us] eqn:Hl; [done|].
    intros [= <-]. split.
    - apply elem_of_when_values. rewrite Hl. apply foldl_max_elem_of.
    - intros n c Hc. apply foldl_max_upper_bound. rewrite <- Hl.
      apply elem_of_when_values. by exists n, c. }
  split; [apply Hsound|].
  intros [(n & c & Hc & <-) Hub].
  destruct (maxTime xs) as [t'|] eqn:Hmax.
  - destruct (Hsound t' eq_refl) as [(n' & c' & Hc' & <-) Hub'].
    f_equal. apply Z.le_antisymm; eauto.
  - apply maxTime_None in Hmax. subst xs. by rewrite lookup_empty in Hc.
Qed.

(** ** The effects of one iteration *)

Ltac run_M := unfold mbind, M_bind, mret, M_ret; simpl.

Section classify.
Variable props : StalePrFinderProps.t.
Implicit Types (rs : option ReviewState.t) (lc bft : option Time) (w : World).

Lemma addComment_run n body w :
  addComment props n body w =
    (tt, called (if StalePrFinderProps.dryRun props
                 then consoleLog (pretty n +:+ ": COMMENT " +:+ body)
                 else createComment n body) w).
Proof. unfold addComment. by destruct (StalePrFinderProps.dryRun props). Qed.

Lemma addMergeConflictWarning_metrics n w :
  metrics (addMergeConflictWarning props n w).2 = metrics w.
Proof. unfold addMergeConflictWarning. by rewrite addComment_run. Qed.

(** The five outcomes of the chain, each with the conditions under which
    it is reached. *)
Lemma classify_cases n now rs lc bft mc w :
  ∃ v w', classify props n now rs lc bft mc w = (v, w') ∧
  ((∃ r c, rs = Some r ∧ lc = Some c ∧ stale props now (ReviewState.when r) = true ∧
      v = Some {| reason := "CHANGES REQUESTED"; since := ReviewState.when r |} ∧
      w' = counted c_staleDueToChangesRequested w)
   ∨ ((∀ r c, rs = Some r → lc = Some c → stale props now (ReviewState.when r) = false) ∧
      ((∃ b, bft = Some b ∧ stale props now b = true ∧
          v = Some {| reason := "BUILD FAILING"; since := b |} ∧
          w' = counted c_staleDueToBuildFailing w)
       ∨ ((∀ b, bft = Some b → stale props now b = false) ∧
          ((∃ c, mc = true ∧ lc = Some c ∧ stale props now c = true ∧
              v = Some {| reason := "MERGE CONFLICTS"; since := c |} ∧
              w' = counted c_staleDueToMergeConflicts w)
           ∨ (∃ c, mc = true ∧ lc = Some c ∧ stale props now c = false ∧
                mergeConflictWarningDays props ≠ 0 ∧
                olderThanDays now c (mergeConflictWarningDays props) = true ∧
                v = None ∧ w' = (addMergeConflictWarning props n w).2)
           ∨ ((mc = false ∨ lc = None ∨
               ∃ c, lc = Some c ∧ stale props now c = false ∧
                    (mergeConflictWarningDays props = 0 ∨
                     olderThanDays now c (mergeConflictWarningDays props) = false)) ∧
              v = None ∧ w' = w)))))).
Proof.
  unfold classify.
  destruct rs as [r|], lc as [c|]; simpl;
    try destruct (stale props now (ReviewState.when r)) eqn:Hr;
    try (eexists _, _; split; [reflexivity|]; left; exists r, c; done).
  all: destruct bft as [b|]; simpl;
    try destruct (stale props now b) eqn:Hb;
    try (eexists _, _; split; [reflexivity|]; right; split; [congruence|];
         left; exists b; done).
  all: destruct mc; simpl;
    try destruct (stale props now c) eqn:Hc;
    try (eexists _, _; split; [reflexivity|]; right; split; [congruence|];
         right; split; [congruence|]; left; exists c; done).
  all: try destruct (decide (mergeConflictWarningDays props = 0)) as [H0|H0];
    rewrite ?(bool_decide_eq_false_2 _ (λ H, H H0)) by done;
    rewrite ?bool_decide_eq_true_2 by done; simpl;
    try destruct (olderThanDays now c (mergeConflictWarningDays props)) eqn:Hold.
  all: try (unfold mbind, M_bind;
            destruct (addMergeConflictWarning props n w) as [[] w1];
            eexists _, _; split; [reflexivity|]; right; split; [congruence|];
            right; split; [congruence|]; right; left; exists c; done).
  all: eexists _, _; split; [reflexivity|]; right; split; [congruence|];
         right; split; [congruence|]; right; right; (split; [|done]).
  all: try (by left).
  all: try (right; by left).
  all: right; right; exists c; split; [done|]; split; [done|].
  all: try (by left).
  all: by right.
Qed.
End classify.

Section stages.
Variable props : StalePrFinderProps.t.
Implicit Types (w : World) (pull : PullObs.t) (stale : option Stale).

Lemma addLabels_run n labels w :
  addLabels props n labels w =
    (tt, called (if StalePrFinderProps.dryRun props
                 then consoleLog (pretty n +:+ ": ADD LABEL " +:+ String.concat "," labels)
                 else addLabelsCall n labels) w).
Proof. unfold addLabels. by destruct (StalePrFinderProps.dryRun props). Qed.

Lemma closeIssue_run n w :
  closeIssue props n w =
    (tt, called (if StalePrFinderProps.dryRun props
                 then consoleLog (pretty n +:+ ": CLOSE")
                 else updateClosed n) w).
Proof. unfold closeIssue. by destruct (StalePrFinderProps.dryRun props). Qed.

Lemma resolveAction_run pull stale warnings w :
  resolveAction props pull stale warnings w =
    match stale with
    | Some st =>
        (decideAction props (PullObs.now pull) st (warnings STALE_PR)
           (memberReviewed (PullObs.reviews pull) (PullObs.comments pull)),
         counted c_stalePrs w)
    | None => (nothing, w)
    end.
Proof. by destruct stale. Qed.

Lemma performAction_metrics n action stale w :
  metrics (performAction props n action stale w).2 =
    match action with
    | nothing => metrics w
    | warn => increment c_warned (metrics w)
    | close => increment c_closed (metrics w)
    end.
Proof.
  destruct action; unfold performAction; run_M; [done| |].
  - by rewrite addComment_run.
  - rewrite addComment_run.
    destruct (StalePrFinderProps.closeLabel props) as [l|]; simpl;
      [case_bool_decide; simpl|]; rewrite ?addLabels_run, closeIssue_run; done.
Qed.

Lemma classify_metrics n now rs lc bft mc w :
  let r := classify props n now rs lc bft mc w in
  (r.1 = None ∧ metrics r.2 = metrics w)
  ∨ (∃ st c, r.1 = Some st ∧ metrics r.2 = increment c (metrics w) ∧
       ((reason st = "CHANGES REQUESTED" ∧ c = c_staleDueToChangesRequested)
        ∨ (reason st = "BUILD FAILING" ∧ c = c_staleDueToBuildFailing)
        ∨ (reason st = "MERGE CONFLICTS" ∧ c = c_staleDueToMergeConflicts))).
Proof.
  simpl.
  destruct (classify_cases props n now rs lc bft mc w) as (v & w' & -> & Hcases);
    simpl.
  destruct Hcases as
    [(r & c & _ & _ & _ & -> & ->)
    |[_ [(b & _ & _ & -> & ->)
        |[_ [(c & _ & _ & _ & -> & ->)
            |[(c & _ & _ & _ & _ & _ & -> & ->)
             |(_ & -> & ->)]]]]]].
  - right. eexists _, _. split; [done|]. split; [done|]. by left.
  - right. eexists _, _. split; [done|]. split; [done|]. right; by left.
  - right. eexists _, _. split; [done|]. split; [done|]. right; by right.
  - left. split; [done|]. apply addMergeConflictWarning_metrics.
  - by left.
Qed.
End stages.

(** ** The order of the reasons *)

(** C5.  One run of the chain for a pull request yields at most one stale
    verdict, and the reasons are tried in the order CHANGES REQUESTED,
    BUILD FAILING, MERGE CONFLICTS: the verdict is that of the first rule
    whose condition holds, and none when no condition holds.  In
    particular a stale change request together with a stale build failure
    yields CHANGES REQUESTED.  The three per-reason counters advance by
    one in total with a verdict and not at all without. *)
Theorem C5_verdict_priority_order props n now rs lc bft mc w :
  let result := classify props n now rs lc bft mc w in
  let review_stale :=
    ∃ r c, rs = Some r ∧ lc = Some c ∧ stale props now (ReviewState.when r) = true in
  let build_stale := ∃ b, bft = Some b ∧ stale props now b = true in
  let conflict_stale := mc = true ∧ ∃ c, lc = Some c ∧ stale props now c = true in
  (review_stale → reason <$> result.1 = Some "CHANGES REQUESTED") ∧
  (¬ review_stale → build_stale → reason <$> result.1 = Some "BUILD FAILING") ∧
  (¬ review_stale → ¬ build_stale → conflict_stale →
     reason <$> result.1 = Some "MERGE CONFLICTS") ∧
  (¬ review_stale → ¬ build_stale → ¬ conflict_stale → result.1 = None) ∧
  (∀ r c b,
     rs = Some r → ReviewState.state r = ReviewState.changes_requested →
     lc = Some c → stale props now (ReviewState.when r) = true →
     bft = Some b → stale props now b = true →
     result.1 = Some {| reason := "CHANGES REQUESTED"; since := ReviewState.when r |}) ∧
  (staleDueToChangesRequested (metrics result.2)
   + staleDueToBuildFailing (metrics result.2)
   + staleDueToMergeConflicts (metrics result.2)
   = staleDueToChangesRequested (metrics w) + staleDueToBuildFailing (metrics w)
     + staleDueToMergeConflicts (metrics w)
     + match result.1 with Some _ => 1 | None => 0 end)%nat.
Proof.
  simpl.
  assert (((staleDueToChangesRequested (metrics (classify props n now rs lc bft mc w).2)
   + staleDueToBuildFailing (metrics (classify props n now rs lc bft mc w).2)
   + staleDueToMergeConflicts (metrics (classify props n now rs lc bft mc w).2)
   = staleDueToChangesRequested (metrics w) + staleDueToBuildFailing (metrics w)
     + staleDueToMergeConflicts (metrics w)
     + match (classify props n now rs lc bft mc w).1 with Some _ => 1 | None => 0 end)%nat)) as Hcount.
  { destruct (classify_metrics props n now rs lc bft mc w)
      as [[-> ->]|(st & c & -> & -> & Hc)]; simpl; [lia|].
    destruct (metrics w).
    destruct Hc as [[_ ->]|[[_ ->]|[_ ->]]]; simpl; lia. }
  destruct (classify_cases props n now rs lc bft mc w) as (v & w' & Heq & Hcases).
  rewrite Heq in *; simpl in *.
  destruct Hcases as
    [(r & c & -> & -> & Hr & -> & ->)
    |[Hnr [(b & -> & Hb & -> & ->)
        |[Hnb [(c & -> & -> & Hc & -> & ->)
            |[(c & -> & -> & Hc & _ & _ & -> & ->)
             |(Hnone & -> & ->)]]]]]].
  - repeat split; try done.
    + intros []. by exists r, c.
    + intros []. by exists r, c.
    + intros []. by exists r, c.
    + by intros ??? [= ->].
  - repeat split; try done.
    + intros (r & c & -> & -> & Hr). by rewrite (Hnr r c) in Hr.
    + intros _ []. by exists b.
    + intros _ []. by exists b.
    + intros r c b' -> _ -> Hr. by rewrite (Hnr r c) in Hr.
  - repeat split; try done.
    + intros (r & c' & -> & [= <-] & Hr). by rewrite (Hnr r c) in Hr.
    + intros _ (b & -> & Hb). by rewrite (Hnb b) in Hb.
    + intros _ _ []. split; [done|]. by exists c.
    + intros r c' b' -> _ [= <-] Hr. by rewrite (Hnr r c) in Hr.
  - repeat split; try done.
    + intros (r & c' & -> & [= <-] & Hr). by rewrite (Hnr r c) in Hr.
    + intros _ (b & -> & Hb). by rewrite (Hnb b) in Hb.
    + intros _ _ (_ & c' & [= <-] & Hc'). congruence.
    + intros r c' b' -> _ [= <-] Hr. by rewrite (Hnr r c) in Hr.
  - repeat split; try done.
    + intros (r & c' & -> & -> & Hr). by rewrite (Hnr r c') in Hr.
    + intros _ (b & -> & Hb). by rewrite (Hnb b) in Hb.
    + intros _ _ (-> & c & -> & Hc).
      destruct Hnone as [?|[?|(c' & [= <-] & Hc' & _)]]; congruence.
    + intros r c' b' -> _ -> Hr. by rewrite (Hnr r c') in Hr.
Qed.

(** C5 at a change request and a build failure that are both stale. *)
Lemma C5_verdict_priority_order_witness :
  reason <$>
    (classify props0 7 (1000 * day)
       (Some (ReviewState.mk ReviewState.changes_requested (970 * day)))
       (Some (960 * day)) (Some (975 * day)) true World_init).1
  = Some "CHANGES REQUESTED".
Proof.
  destruct (C5_verdict_priority_order props0 7 (1000 * day)
              (Some (ReviewState.mk ReviewState.changes_requested (970 * day)))
              (Some (960 * day)) (Some (975 * day)) true World_init)
    as (Hfirst & _).
  apply Hfirst.
  exists (ReviewState.mk ReviewState.changes_requested (970 * day)), (960 * day).
  repeat split; reflexivity.
Defined.

(** ** The filter of [importantChecksRegex] *)

Lemma buildFailTime_regex props regex (failingChecks : gmap string FailedCheck) :
  StalePrFinderProps.importantChecksRegex props = Some regex →
  buildFailTime props failingChecks =
    maxTime (filter (λ e, regex e.1 = true) failingChecks).
Proof.
  intros Hre. unfold buildFailTime. rewrite Hre.
  by rewrite fromEntries_filter_entries.
Qed.

(** C7.  With [importantChecksRegex] configured, the build-failure time is
    the latest failure time among the failing checks whose name matches;
    when no failing check matches there is no build-failure time, and the
    chain never yields a BUILD FAILING verdict nor advances its counter,
    whatever failing checks the unfiltered set holds. *)
Theorem C7_regex_restricts_build_failure props regex
    (failingChecks : gmap string FailedCheck) :
  StalePrFinderProps.importantChecksRegex props = Some regex →
  (∀ t, buildFailTime props failingChecks = Some t ↔
        (∃ name c, regex name = true ∧ failingChecks !! name = Some c ∧ when c = t) ∧
        (∀ name c, regex name = true → failingChecks !! name = Some c → when c ≤ t)) ∧
  ((∀ name, is_Some (failingChecks !! name) → regex name = false) →
   buildFailTime props failingChecks = None ∧
   ∀ n now rs lc mc w,
     let result := classify props n now rs lc (buildFailTime props failingChecks) mc w in
     reason <$> result.1 ≠ Some "BUILD FAILING" ∧
     staleDueToBuildFailing (metrics result.2) = staleDueToBuildFailing (metrics w)).
Proof.
  intros Hre. rewrite (buildFailTime_regex props regex) by done. split.
  - intros t. rewrite maxTime_Some. split.
    + intros [(name & c & [Hc Hm]%map_lookup_filter_Some & <-) Hub]. split.
      * by exists name, c.
      * intros name' c' Hm' Hc'. apply (Hub name').
        by apply map_lookup_filter_Some.
    + intros [(name & c & Hm & Hc & <-) Hub]. split.
      * exists name, c. split; [|done]. by apply map_lookup_filter_Some.
      * intros name' c' [Hc' Hm']%map_lookup_filter_Some. by apply (Hub name').
  - intros Hnone.
    assert (maxTime (filter (λ e, regex e.1 = true) failingChecks) = None) as ->.
    { apply maxTime_None, map_eq. intros name. rewrite lookup_empty.
      apply map_lookup_filter_None. right. intros c Hc; simpl.
      rewrite (Hnone name); eauto. }
    split; [done|]. intros n now rs lc mc w; simpl.
    destruct (classify_cases props n now rs lc None mc w) as (v & w' & -> & Hcases);
      simpl.
    destruct (metrics w) eqn:Hm.
    destruct Hcases as
      [(r & c & _ & _ & _ & -> & ->)
      |[_ [(b & [=] & _)
          |[_ [(c & _ & _ & _ & -> & ->)
              |[(c & _ & _ & _ & _ & _ & -> & ->)
               |(_ & -> & ->)]]]]]]; simpl;
      rewrite ?addMergeConflictWarning_metrics, ?Hm; done.
Qed.

(** C7 at the pattern [build] and a single failing check [lint]. *)
Lemma C7_regex_restricts_build_failure_witness :
  buildFailTime
    (StalePrFinderProps.mk 21 10 None None (Some (String.eqb "build")) None None None None false)
    {[ "lint" := {| when := 999 * day |} ]} = None.
Proof.
  apply (C7_regex_restricts_build_failure
           (StalePrFinderProps.mk 21 10 None None (Some (String.eqb "build"))
              None None None None false)
           (String.eqb "build") {[ "lint" := {| when := 999 * day |} ]} eq_refl).
  intros name [c Hc].
  apply lookup_singleton_Some in Hc as [<- _]. reflexivity.
Defined.

(** ** One iteration of the loop *)

Lemma processPull_unfold props pull w :
  processPull props pull w =
    if hasSkipLabel props (PullObs.labels pull) then
      (tt, counted c_skipped (counted c_prsProcessed w))
    else
      let '(stale, w1) :=
        classify props (PullObs.number pull) (PullObs.now pull)
          (reviewState (PullObs.reviews pull)) (lastCommit (PullObs.commits pull))
          (buildFailTime props
             (failingChecks (PullObs.check_runs pull) (PullObs.statuses pull)))
          (bool_decide (PullObs.mergeable_state pull = "dirty"))
          (counted c_prsProcessed w) in
      let '(action, w2) :=
        resolveAction props pull stale (mostRecentWarnings (PullObs.comments pull)) w1 in
      performAction props (PullObs.number pull) action stale w2.
Proof.
  unfold processPull. run_M.
  by destruct (hasSkipLabel props (PullObs.labels pull)).
Qed.

(** ** The merge-conflict warning *)



(** ** The counters *)

Lemma processPull_metrics_step props pull w :
  Metrics_consistent (metrics w) →
  Metrics_consistent (metrics (processPull props pull w).2) ∧
  prsProcessed (metrics (processPull props pull w).2) = S (prsProcessed (metrics w)).
Proof.
  intros Hinv. rewrite processPull_unfold.
  destruct (hasSkipLabel props (PullObs.labels pull)).
  { simpl. destruct (metrics w). unfold Metrics_consistent in *; simpl in *. lia. }
  pose proof (classify_metrics props (PullObs.number pull) (PullObs.now pull)
                (reviewState (PullObs.reviews pull)) (lastCommit (PullObs.commits pull))
                (buildFailTime props
                   (failingChecks (PullObs.check_runs pull) (PullObs.statuses pull)))
                (bool_decide (PullObs.mergeable_state pull = "dirty"))
                (counted c_prsProcessed w)) as Hm.
  destruct (classify _ _ _ _ _ _ _ _) as [v w1]. simpl in Hm.
  rewrite resolveAction_run.
  destruct Hm as [[-> Hm]|(st & c & -> & Hm & Hc)]; simpl.
  - rewrite Hm. destruct (metrics w).
    unfold Metrics_consistent in *; simpl in *. lia.
  - rewrite performAction_metrics; simpl. rewrite Hm.
    destruct (metrics w). unfold Metrics_consistent in *.
    destruct (decideAction _ _ _ _ _), Hc as [[_ ->]|[[_ ->]|[_ ->]]];
      simpl in *; lia.
Qed.

Lemma forEach_metrics_step props pulls w :
  Metrics_consistent (metrics w) →
  Metrics_consistent (metrics (forEach (processPull props) pulls w).2) ∧
  (prsProcessed (metrics (forEach (processPull props) pulls w).2)
   = prsProcessed (metrics w) + length pulls)%nat.
Proof.
  revert w. induction pulls as [|pull pulls IH]; intros w Hinv; simpl.
  { split; [done|lia]. }
  run_M. destruct (processPull_metrics_step props pull w Hinv) as [Hinv' Hn].
  destruct (processPull props pull w) as [[] w']; simpl in *.
  destruct (IH w' Hinv') as [? ->]. split; [done|lia].
Qed.

(** C10.  After every pull request of a run, and so at its end, the
    counters satisfy: [stalePrs] is the sum of the three per-reason
    counters, [warned + closed] is at most [stalePrs], and [skipped] is at
    most [prsProcessed]; at the end [prsProcessed] is the number of open
    pull requests, the skipped ones included. *)
Theorem C10_metrics_invariants props pulls :
  (∀ k, Metrics_consistent
          (metrics (forEach (processPull props) (take k (reverse pulls)) World_init).2)) ∧
  Metrics_consistent (metrics (findAll props pulls World_init).2) ∧
  prsProcessed (metrics (findAll props pulls World_init).2) = length pulls.
Proof.
  assert (Metrics_consistent (metrics World_init)) as Hinit.
  { unfold Metrics_consistent; simpl. lia. }
  split; [|split].
  - intros k. by apply forEach_metrics_step.
  - by apply forEach_metrics_step.
  - unfold findAll.
    destruct (forEach_metrics_step props (reverse pulls) World_init Hinit) as [_ ->].
    simpl. by rewrite length_reverse.
Qed.

(** ** The dry-run mode *)

Section dry_run.
Variable props : StalePrFinderProps.t.

Let dry := with_dryRun true props.
Let real := with_dryRun false props.

Lemma simulates_ret {A} (a : A) : simulates (mret a) (mret a).
Proof. by intros wd wr Hw. Qed.

Lemma simulates_bind {A B} (md mr : M A) (kd kr : A → M B) :
  simulates md mr → (∀ a, simulates (kd a) (kr a)) →
  simulates (md ≫= kd) (mr ≫= kr).
Proof.
  intros Hm Hk wd wr Hw. unfold mbind, M_bind.
  destruct (Hm wd wr Hw) as [Heq Hw'].
  destruct (md wd) as [a wd'], (mr wr) as [a' wr']; simpl in *; subst a'.
  by apply Hk.
Qed.

Lemma simulates_count c : simulates (count c) (count c).
Proof.
  intros wd wr (Hm & Hc & Hmut). repeat split; simpl; [|done..].
  by rewrite Hm.
Qed.

Lemma simulates_perform c :
  is_mutating c = true → simulates (perform (dry_line c)) (perform c).
Proof.
  intros Hc wd wr (Hm & Hcalls & Hmut). repeat split; simpl; [done| |].
  - by rewrite fmap_app, Hcalls.
  - apply Forall_app. split; [done|]. by apply Forall_singleton.
Qed.

Lemma simulates_addComment n body :
  simulates (addComment dry n body) (addComment real n body).
Proof. by apply (simulates_perform (createComment n body)). Qed.

Lemma simulates_addLabels n labels :
  simulates (addLabels dry n labels) (addLabels real n labels).
Proof. by apply (simulates_perform (addLabelsCall n labels)). Qed.

Lemma simulates_closeIssue n :
  simulates (closeIssue dry n) (closeIssue real n).
Proof. by apply (simulates_perform (updateClosed n)). Qed.

Lemma simulates_addMergeConflictWarning n :
  simulates (addMergeConflictWarning dry n) (addMergeConflictWarning real n).
Proof. apply simulates_addComment. Qed.

Ltac simulate :=
  repeat first
    [ apply simulates_ret
    | apply simulates_count
    | apply simulates_addComment
    | apply simulates_addLabels
    | apply simulates_closeIssue
    | apply simulates_addMergeConflictWarning
    | apply simulates_bind; [|intros ?] ].

Lemma simulates_classify n now rs lc bft mc :
  simulates (classify dry n now rs lc bft mc) (classify real n now rs lc bft mc).
Proof.
  unfold classify.
  change (stale dry) with (stale props). change (stale real) with (stale props).
  change (mergeConflictWarningDays dry) with (mergeConflictWarningDays props).
  change (mergeConflictWarningDays real) with (mergeConflictWarningDays props).
  destruct rs as [r|], lc as [c|]; simpl;
    try destruct (stale props now (ReviewState.when r));
    try (by simulate);
    destruct bft as [b|]; try destruct (stale props now b);
    try (by simulate);
    destruct mc; try (by simulate);
    try destruct (stale props now c); try (by simulate);
    destruct (bool_decide _ && olderThanDays _ _ _); by simulate.
Qed.

Lemma simulates_resolveAction pull stale warnings :
  simulates (resolveAction dry pull stale warnings)
            (resolveAction real pull stale warnings).
Proof.
  unfold resolveAction. destruct stale as [st|]; [|by simulate].
  change (decideAction dry) with (decideAction props).
  change (decideAction real) with (decideAction props).
  by simulate.
Qed.

Lemma simulates_performAction n action stale :
  simulates (performAction dry n action stale) (performAction real n action stale).
Proof.
  unfold performAction. destruct action; simpl; [by simulate..|].
  simulate. destruct (StalePrFinderProps.closeLabel props) as [l|]; [|by simulate].
  case_bool_decide; by simulate.
Qed.

Lemma simulates_processPull pull :
  simulates (processPull dry pull) (processPull real pull).
Proof.
  unfold processPull.
  change (hasSkipLabel dry) with (hasSkipLabel props).
  change (hasSkipLabel real) with (hasSkipLabel props).
  change (buildFailTime dry) with (buildFailTime props).
  change (buildFailTime real) with (buildFailTime props).
  apply simulates_bind; [apply simulates_count|intros _].
  destruct (hasSkipLabel props (PullObs.labels pull)); [apply simulates_count|].
  apply simulates_bind; [apply simulates_classify|intros stale].
  apply simulates_bind; [apply simulates_resolveAction|intros action].
  apply simulates_performAction.
Qed.

Lemma simulates_forEach pulls :
  simulates (forEach (processPull dry) pulls) (forEach (processPull real) pulls).
Proof.
  induction pulls as [|pull pulls IH]; simpl; [apply simulates_ret|].
  apply simulates_bind; [apply simulates_processPull|by intros _].
Qed.
End dry_run.

(** C9.  In the dry-run mode each of the three mutating operations appends
    the line of the intended call in place of the call.  A dry run and a
    real run on the same observations end with the same counters; the
    trace of the dry run is that of the real run with every call replaced
    by its line, so that it holds no mutating call, while the real run
    holds nothing else. *)
Theorem C9_dry_run props pulls :
  let dry := with_dryRun true props in
  let real := with_dryRun false props in
  (∀ n body w,
     addComment dry n body w = (tt, called (dry_line (createComment n body)) w) ∧
     addComment real n body w = (tt, called (createComment n body) w)) ∧
  (∀ n labels w,
     addLabels dry n labels w = (tt, called (dry_line (addLabelsCall n labels)) w) ∧
     addLabels real n labels w = (tt, called (addLabelsCall n labels) w)) ∧
  (∀ n w,
     closeIssue dry n w = (tt, called (dry_line (updateClosed n)) w) ∧
     closeIssue real n w = (tt, called (updateClosed n) w)) ∧
  let wd := (findAll dry pulls World_init).2 in
  let wr := (findAll real pulls World_init).2 in
  metrics wd = metrics wr ∧
  calls wd = dry_line <$> calls wr ∧
  Forall (λ c, is_mutating c = false) (calls wd) ∧
  Forall (λ c, is_mutating c = true) (calls wr).
Proof.
  simpl. split; [done|]. split; [done|]. split; [done|].
  destruct (simulates_forEach props (reverse pulls) World_init World_init)
    as (_ & Hm & Hc & Hmut).
  { repeat split; simpl; constructor. }
  unfold findAll. split; [done|]. split; [done|]. split; [|done].
  rewrite Hc. apply Forall_fmap, Forall_forall. by intros [] _.
Qed.

(** ** The decision on a stale pull request *)

Lemma filter_filter_nil {A} (P Q : A → Prop)
    `{!∀ x, Decision (P x)} `{!∀ x, Decision (Q x)} (l : list A) :
  filter Q (filter P l) = [] ↔ ∀ x, x ∈ l → P x → ¬ Q x.
Proof.
  split.
  - intros Hnil x Hx HP HQ.
    apply (filter_nil_not_elem_of Q (filter P l) x Hnil HQ).
    by apply list_elem_of_filter.
  - intros Hall. induction l as [|x l IH]; [done|].
    rewrite filter_cons. destruct (decide (P x)) as [HP|HP].
    + rewrite filter_cons_False.
      * apply IH. intros y Hy. apply Hall. by right.
      * apply Hall; [by left|done].
    + apply IH. intros y Hy. apply Hall. by right.
Qed.

(** [memberReviewed] is false exactly when no review and no comment of a
    member carries a [submitted_at]. *)
Lemma memberReviewed_false reviews comments :
  memberReviewed reviews comments = false ↔
  (∀ r, r ∈ reviews → Review.author_association r = "MEMBER" →
        Review.submitted_at r = None) ∧
  (∀ c, c ∈ comments → Comment.author_association c = "MEMBER" →
        Comment.submitted_at c = None).
Proof.
  unfold memberReviewed.
  rewrite orb_false_iff, !bool_decide_eq_false.
  assert (∀ {A} (l : list A), ¬ (0 < length l)%nat ↔ l = []) as Hlen.
  { intros A [|x l]; simpl; split; (done || lia). }
  rewrite !Hlen, !filter_filter_nil.
  setoid_rewrite <- eq_None_not_Some. tauto.
Qed.

Lemma memberReviewed_review reviews comments r :
  r ∈ reviews → Review.author_association r = "MEMBER" →
  is_Some (Review.submitted_at r) → memberReviewed reviews comments = true.
Proof.
  intros Hin Hmember Hat.
  destruct (memberReviewed reviews comments) eqn:Hmr; [done|].
  apply memberReviewed_false in Hmr as [Hreviews _].
  rewrite (Hreviews r Hin Hmember) in Hat. by destruct Hat.
Qed.

(** C1 (as amended).  On a stale pull request on which a comment of a
    member comes with a submitted review of a member, the resolved action
    is [warn] exactly when there is no earlier STALE PR warning, or the
    warning is strictly earlier than the verdict's [since], or no member
    has engaged with the pull request: no member submitted a review and no
    member commented, at whatever time.  The time of the engagement is not
    compared with the warning: on a pull request with a submitted review
    of a member, made before or after the warning, a warning that is not
    earlier than [since] never leads to [warn] again, and within the grace
    period the action is [nothing].  Pull requests that members only
    commented on are left aside. *)
Theorem C1_warn_iff props pull st w :
  let reviews := PullObs.reviews pull in
  let comments := PullObs.comments pull in
  let warnings := mostRecentWarnings comments in
  let action := (resolveAction props pull (Some st) warnings w).1 in
  let reviewed_by_member :=
    ∃ r, r ∈ reviews ∧ Review.author_association r = "MEMBER" ∧
         is_Some (Review.submitted_at r) in
  let commented_by_member :=
    ∃ c, c ∈ comments ∧ Comment.author_association c = "MEMBER" in
  ((commented_by_member → reviewed_by_member) →
   (action = warn ↔
      warnings STALE_PR = None ∨
      (∃ warning, warnings STALE_PR = Some warning ∧ warning < since st) ∨
      ¬ (reviewed_by_member ∨ commented_by_member))) ∧
  (reviewed_by_member →
   ∀ warning, warnings STALE_PR = Some warning → since st ≤ warning →
     action ≠ warn ∧
     (outOfGracePeriod props (PullObs.now pull) warning = false → action = nothing)).
Proof.
  cbv zeta. rewrite resolveAction_run; simpl.
  assert (decideAction props (PullObs.now pull) st
            (mostRecentWarnings (PullObs.comments pull) STALE_PR)
            (memberReviewed (PullObs.reviews pull) (PullObs.comments pull)) = warn ↔
          mostRecentWarnings (PullObs.comments pull) STALE_PR = None ∨
          (∃ warning, mostRecentWarnings (PullObs.comments pull) STALE_PR = Some warning
                      ∧ warning < since st) ∨
          memberReviewed (PullObs.reviews pull) (PullObs.comments pull) = false) as Hiff.
  { unfold decideAction.
    destruct (mostRecentWarnings (PullObs.comments pull) STALE_PR) as [warning|];
      [|by split; [left|]].
    destruct (memberReviewed _ _); simpl; rewrite ?orb_true_r, ?orb_false_r.
    - case_bool_decide as Hlt.
      + split; [|done]. intros _. right; left. by exists warning.
      + split.
        * by destruct (outOfGracePeriod props (PullObs.now pull) warning).
        * intros [?|[(t & [= <-] & ?)|?]]; done.
    - split; [|done]. intros _. right; by right. }
  split.
  - intros Hcomment. rewrite Hiff.
    assert (memberReviewed (PullObs.reviews pull) (PullObs.comments pull) = false ↔
            ¬ ((∃ r, r ∈ PullObs.reviews pull ∧ Review.author_association r = "MEMBER" ∧
                     is_Some (Review.submitted_at r)) ∨
               (∃ c, c ∈ PullObs.comments pull ∧
                     Comment.author_association c = "MEMBER"))) as ->; [|done].
    rewrite memberReviewed_false. split.
    + intros [Hreviews _] Hengaged.
      assert (∃ r, r ∈ PullObs.reviews pull ∧ Review.author_association r = "MEMBER" ∧
                   is_Some (Review.submitted_at r)) as (r & Hin & Hmember & Hat).
      { destruct Hengaged as [?|?]; auto. }
      rewrite (Hreviews r Hin Hmember) in Hat. by destruct Hat.
    + intros Hnone. split.
      * intros r Hin Hmember. apply eq_None_not_Some. intros Hat.
        apply Hnone. left. by exists r.
      * intros c Hin Hmember. exfalso. apply Hnone. right. by exists c.
  - intros (r & Hin & Hmember & Hat) warning Hwarning Hsince.
    rewrite Hwarning, (memberReviewed_review _ _ r Hin Hmember Hat).
    unfold decideAction. rewrite bool_decide_eq_false_2 by lia; simpl.
    destruct (outOfGracePeriod props (PullObs.now pull) warning); split; done.
Qed.

(** C1 at a pull request with a change request of a member of 30 days
    ago, a warning of 5 days ago and a comment of that member of 2 days
    ago: none of the three conditions holds, and the action is [nothing]. *)
Lemma C1_warn_iff_witness :
  let pull := pull_member_commented_after_warning in
  let st := {| reason := "CHANGES REQUESTED"; since := T0 - 30 * day |} in
  let warnings := mostRecentWarnings (PullObs.comments pull) in
  let action := (resolveAction props0 pull (Some st) warnings World_init).1 in
  (action = warn ↔
     warnings STALE_PR = None ∨
     (∃ warning, warnings STALE_PR = Some warning ∧ warning < since st) ∨
     ¬ ((∃ r, r ∈ PullObs.reviews pull ∧ Review.author_association r = "MEMBER" ∧
              is_Some (Review.submitted_at r)) ∨
        (∃ c, c ∈ PullObs.comments pull ∧ Comment.author_association c = "MEMBER"))) ∧
  action = nothing.
Proof.
  intros pull st warnings action.
  assert (∃ r, r ∈ PullObs.reviews pull ∧ Review.author_association r = "MEMBER" ∧
               is_Some (Review.submitted_at r)) as Hreview.
  { exists (Review.mk "MEMBER" "CHANGES_REQUESTED" (Some (T0 - 30 * day))).
    split; [by left|]. split; [reflexivity|]. by eexists. }
  destruct (C1_warn_iff props0 pull st World_init) as [Hiff Hreviewed].
  split.
  - apply Hiff. intros _. exact Hreview.
  - apply (Hreviewed Hreview (T0 - 5 * day)).
    + reflexivity.
    + by vm_compute.
    + reflexivity.
Defined.

(** The claim of C1 as it is stated fails in both directions.  A member
    review made after the warning, within the grace period, leaves the
    action at [nothing]; and on a pull request no member ever reviewed,
    the warning is repeated although nothing happened since the last one. *)
Lemma C1_counterexample :
  (let pull := pull_member_engaged_after_warning in
   let st := {| reason := "CHANGES REQUESTED"; since := T0 - 30 * day |} in
   (classify props0 (PullObs.number pull) T0 (reviewState (PullObs.reviews pull))
      (lastCommit (PullObs.commits pull)) None false World_init).1 = Some st ∧
   mostRecentWarnings (PullObs.comments pull) STALE_PR = Some (T0 - 5 * day) ∧
   memberEngagedSince (PullObs.reviews pull) (PullObs.comments pull) (T0 - 5 * day) = true ∧
   (resolveAction props0 pull (Some st) (mostRecentWarnings (PullObs.comments pull))
      World_init).1 = nothing ∧
   processPull props0 pull World_init =
     (tt, {| metrics := Build_Metrics 1 0 1 1 0 0 0 0; calls := [] |})) ∧
  (let pull := pull_no_member [stale_warning_comment (T0 - 5 * day)] in
   let st := {| reason := "BUILD FAILING"; since := T0 - 25 * day |} in
   (classify props0 (PullObs.number pull) T0 (reviewState (PullObs.reviews pull))
      (lastCommit (PullObs.commits pull)) (Some (T0 - 25 * day)) false World_init).1
     = Some st ∧
   mostRecentWarnings (PullObs.comments pull) STALE_PR = Some (T0 - 5 * day) ∧
   (T0 - 5 * day <? T0 - 25 * day) = false ∧
   memberEngagedSince (PullObs.reviews pull) (PullObs.comments pull) (T0 - 5 * day) = false ∧
   (resolveAction props0 pull (Some st) (mostRecentWarnings (PullObs.comments pull))
      World_init).1 = warn ∧
   processPull props0 pull World_init =
     (tt, {| metrics := Build_Metrics 1 0 1 0 1 0 1 0;
             calls := [createComment 8
                         (marker STALE_PR +:+ newline +:+
                          "This PR has been in BUILD FAILING for 21 days, and looks abandoned. It will be closed in 10 days if no further commits are pushed to it.")] |})).
Proof. repeat split; vm_compute; reflexivity. Qed.

(** C4 (as amended).  For a stale verdict and an earlier STALE PR warning
    that is not earlier than the verdict's [since], on a pull request for
    which [memberReviewed] holds, the action is [nothing] as long as
    [now] is at most the warning time plus [responseDays] days, and [close]
    once [now] is strictly later; it is never [warn], and once [close] it
    stays [close] at every later [now]. *)
Theorem C4_grace_period props st warning now :
  since st ≤ warning →
  let deadline := warning + StalePrFinderProps.responseDays props * 24 * 3600 * 1000 in
  (now ≤ deadline → decideAction props now st (Some warning) true = nothing) ∧
  (deadline < now → decideAction props now st (Some warning) true = close) ∧
  (∀ now', now ≤ now' →
     decideAction props now st (Some warning) true = close →
     decideAction props now' st (Some warning) true = close).
Proof.
  intros Hsince deadline.
  assert (∀ t, decideAction props t st (Some warning) true =
               if bool_decide (deadline < t) then close else nothing) as Heq.
  { intros t. unfold decideAction, outOfGracePeriod, olderThanDays; simpl.
    rewrite bool_decide_eq_false_2 by lia. done. }
  rewrite !Heq. repeat split.
  - intros Hle. by rewrite bool_decide_eq_false_2 by lia.
  - intros Hlt. by rewrite bool_decide_eq_true_2 by lia.
  - intros now' Hle. rewrite Heq. case_bool_decide; [|done].
    intros _. by rewrite bool_decide_eq_true_2 by lia.
Qed.

(** C4 at a warning of 15 days ago, with 10 days to respond. *)
Lemma C4_grace_period_witness :
  decideAction props0 T0 {| reason := "CHANGES REQUESTED"; since := T0 - 30 * day |}
    (Some (T0 - 15 * day)) true = close.
Proof.
  destruct (C4_grace_period props0
              {| reason := "CHANGES REQUESTED"; since := T0 - 30 * day |}
              (T0 - 15 * day) T0) as (_ & Hclose & _).
  - by vm_compute.
  - apply Hclose. by vm_compute.
Defined.

(** The claim of C4 as it is stated fails at the end of the grace period:
    when [now] equals the warning time plus [responseDays] days the action
    is still [nothing], the comparison of [olderThanDays] being strict.
    It also fails when no member reviewed: the action is then [warn]. *)
Lemma C4_counterexample :
  let st := {| reason := "CHANGES REQUESTED"; since := T0 - 30 * day |} in
  let warning := T0 - 10 * day in
  (since st <=? warning) = true ∧
  (warning + StalePrFinderProps.responseDays props0 * day <=? T0) = true ∧
  mostRecentWarnings [stale_warning_comment warning] STALE_PR = Some warning ∧
  (resolveAction props0 (pull_changes_requested [stale_warning_comment warning])
     (Some st) (mostRecentWarnings [stale_warning_comment warning]) World_init).1
    = nothing ∧
  decideAction props0 (warning + 1) st (Some warning) false = warn.
Proof. repeat split; vm_compute; reflexivity. Qed.

(** ** [reviewState] *)

Section sort.
Context {A : Type} (key : A → Time).

Local Abbreviation cmp := (λ a b : A, localeCompare (key a) (key b)).
Local Abbreviation le := (λ a b : A, key a ≤ key b).

Lemma localeCompare_nonpos a b : localeCompare a b ≤ 0 ↔ a ≤ b.
Proof.
  unfold localeCompare. destruct (Z.compare_spec a b); split; lia.
Qed.

Lemma sort_insert_Permutation x l : sort_insert cmp x l ≡ₚ x :: l.
Proof.
  induction l as [|y l IH]; simpl; [done|].
  case_bool_decide; [done|]. rewrite IH. apply Permutation_swap.
Qed.

Lemma sort_Permutation l : sort cmp l ≡ₚ l.
Proof.
  induction l as [|x l IH]; simpl; [done|].
  by rewrite sort_insert_Permutation, IH.
Qed.

Lemma sort_insert_sorted x l :
  StronglySorted le l → StronglySorted le (sort_insert cmp x l).
Proof.
  induction 1 as [|y l Hsorted IH Hall]; simpl.
  { repeat constructor. }
  case_bool_decide as Hxy; rewrite localeCompare_nonpos in Hxy.
  - constructor; [by constructor|]. constructor; [done|].
    eapply Forall_impl; [exact Hall|]. simpl. intros; lia.
  - constructor; [done|]. rewrite sort_insert_Permutation.
    constructor; [lia|done].
Qed.

Lemma sort_sorted l : StronglySorted le (sort cmp l).
Proof.
  induction l as [|x l IH]; simpl; [constructor|by apply sort_insert_sorted].
Qed.

Lemma StronglySorted_filter (P : A → Prop) `{!∀ x, Decision (P x)} l :
  StronglySorted le l → StronglySorted le (filter P l).
Proof.
  induction 1 as [|y l Hsorted IH Hall]; [constructor|].
  rewrite filter_cons. case_decide; [|done].
  constructor; [done|]. apply Forall_forall.
  intros z [_ Hz]%list_elem_of_filter.
  by apply (proj1 (Forall_forall _ _) Hall).
Qed.

Lemma StronglySorted_head_least l x y :
  StronglySorted le l → head l = Some x → y ∈ l → key x ≤ key y.
Proof.
  intros Hsorted Hhead Hy. destruct l as [|z l]; [done|].
  simplify_eq/=. apply StronglySorted_inv in Hsorted as [_ Hall].
  apply elem_of_cons in Hy as [->|Hy]; [lia|].
  by apply (proj1 (Forall_forall _ _) Hall).
Qed.

Lemma StronglySorted_last_greatest l x y :
  StronglySorted le l → last l = Some x → y ∈ l → key y ≤ key x.
Proof.
  intros Hsorted [l' ->]%last_Some Hy.
  apply elem_of_app in Hy as [Hy| ->%list_elem_of_singleton]; [|lia].
  by apply (StronglySorted_app_1_elem_of le l' [x] y x);
    [| |apply list_elem_of_singleton].
Qed.
End sort.

(** What [reviewState] computes: with a change request of a member, the
    time of the newest one; else with an approval of a member, the time
    of the oldest one; else nothing.  Reviews of others and reviews without
    [submitted_at] play no part. *)
Lemma reviewState_spec reviews :
  let counts (state : string) (r : Review.t) : Prop :=
    r ∈ reviews ∧ Review.author_association r = "MEMBER" ∧
    is_Some (Review.submitted_at r) ∧ Review.state r = state in
  match reviewState reviews with
  | Some (ReviewState.mk ReviewState.changes_requested t) =>
      (∃ r, counts "CHANGES_REQUESTED" r ∧ Review.submitted_at r = Some t) ∧
      (∀ r t', counts "CHANGES_REQUESTED" r → Review.submitted_at r = Some t' → t' ≤ t)
  | Some (ReviewState.mk ReviewState.approved t) =>
      (∀ r, ¬ counts "CHANGES_REQUESTED" r) ∧
      (∃ r, counts "APPROVED" r ∧ Review.submitted_at r = Some t) ∧
      (∀ r t', counts "APPROVED" r → Review.submitted_at r = Some t' → t ≤ t')
  | None =>
      (∀ r, ¬ counts "CHANGES_REQUESTED" r) ∧ (∀ r, ¬ counts "APPROVED" r)
  end.
Proof.
  intros counts. unfold reviewState.
  pose (key := λ r, nonnull (Review.submitted_at r)).
  set (members := filter _ (filter _ reviews)).
  change (sort _ members) with (sort (λ a b, localeCompare (key a) (key b)) members).
  set (sorted := sort _ members).
  assert (∀ state r, r ∈ filter (λ r, Review.state r = state) sorted ↔ counts state r)
    as Hcounts.
  { intros state r. unfold counts, sorted, members.
    rewrite list_elem_of_filter, (sort_Permutation key), !list_elem_of_filter. tauto. }
  assert (∀ state, StronglySorted (λ a b, key a ≤ key b)
                     (filter (λ r, Review.state r = state) sorted)) as Hsorted.
  { intros state. apply StronglySorted_filter, sort_sorted. }
  assert (∀ state r, counts state r → Review.submitted_at r = Some (key r)) as Hkey.
  { intros state r (_ & _ & [t Ht] & _). unfold key. by rewrite Ht. }
  destruct (last (filter (λ r, Review.state r = "CHANGES_REQUESTED") sorted))
    as [r|] eqn:Hlast.
  { split.
    - exists r. assert (counts "CHANGES_REQUESTED" r) as Hr.
      { apply Hcounts. by eapply last_Some_elem_of. }
      split; [done|]. by eapply Hkey.
    - intros r' t' Hr' Ht'.
      pose proof (StronglySorted_last_greatest key _ r r' (Hsorted _) Hlast
                    (proj2 (Hcounts _ r') Hr')) as Hle.
      unfold key at 1 in Hle. rewrite Ht' in Hle. done. }
  apply last_None in Hlast.
  assert (∀ r, ¬ counts "CHANGES_REQUESTED" r) as Hnone.
  { intros r Hr%Hcounts. rewrite Hlast in Hr. by apply elem_of_nil in Hr. }
  destruct (head (filter (λ r, Review.state r = "APPROVED") sorted))
    as [r|] eqn:Hhead.
  - split; [done|]. split.
    + exists r. assert (counts "APPROVED" r) as Hr.
      { apply Hcounts. by eapply head_Some_elem_of. }
      split; [done|]. by eapply Hkey.
    + intros r' t' Hr' Ht'.
      pose proof (StronglySorted_head_least key _ r r' (Hsorted _) Hhead
                    (proj2 (Hcounts _ r') Hr')) as Hle.
      unfold key at 2 in Hle. rewrite Ht' in Hle. done.
  - split; [done|]. apply head_None in Hhead.
    intros r Hr%Hcounts. rewrite Hhead in Hr. by apply elem_of_nil in Hr.
Qed.

(** Reviews of others than members do not reach [reviewState]. *)
Lemma reviewState_members_only reviews :
  reviewState (filter (λ r, Review.author_association r = "MEMBER") reviews)
  = reviewState reviews.
Proof.
  unfold reviewState. f_equal.
  assert (filter (λ r, Review.author_association r = "MEMBER")
            (filter (λ r, Review.author_association r = "MEMBER") reviews)
          = filter (λ r, Review.author_association r = "MEMBER") reviews) as ->; [|done].
  induction reviews as [|r reviews IH]; [done|].
  rewrite filter_cons. case_decide; [|done].
  rewrite filter_cons_True by done. by rewrite IH.
Qed.

(** C3, on the code.  Of two change requests of members, [reviewState]
    takes the time of the newer one, where the comment in the source and
    the claim name the older one; of two approvals it takes the time of
    the older one, where the claim names the newer one.  The list is sorted
    in ascending order, and [pop] and the index 0 are applied as if it
    were sorted in descending order. *)
Theorem C3_reviewState_newest_change_request :
  reviewState [Review.mk "MEMBER" "CHANGES_REQUESTED" (Some (T0 - 30 * day));
               Review.mk "MEMBER" "CHANGES_REQUESTED" (Some (T0 - 2 * day))]
    = Some (ReviewState.mk ReviewState.changes_requested (T0 - 2 * day)) ∧
  reviewState [Review.mk "MEMBER" "APPROVED" (Some (T0 - 30 * day));
               Review.mk "MEMBER" "APPROVED" (Some (T0 - 2 * day))]
    = Some (ReviewState.mk ReviewState.approved (T0 - 30 * day)).
Proof. split; vm_compute; reflexivity. Qed.

(** ** The review-state rule *)

(** The first rule fires on every review state that is old enough, an
    approval included. *)
Lemma classify_any_review_state props n now rs lc bft mc w :
  stale props now (ReviewState.when rs) = true →
  classify props n now (Some rs) (Some lc) bft mc w =
    (Some {| reason := "CHANGES REQUESTED"; since := ReviewState.when rs |},
     counted c_staleDueToChangesRequested w).
Proof. intros Hstale. unfold classify. by rewrite Hstale. Qed.

(** C2, on the code.  The first rule of the chain tests [reviewState], not
    [changesRequested]: a pull request whose only member review is an
    approval of 30 days ago, with a last commit, is classified stale with
    the reason CHANGES REQUESTED, counted as such and warned. *)
Theorem C2_approval_classified_changes_requested :
  reviewState (PullObs.reviews pull_approved)
    = Some (ReviewState.mk ReviewState.approved (T0 - 30 * day)) ∧
  (classify props0 11 T0 (reviewState (PullObs.reviews pull_approved))
     (lastCommit (PullObs.commits pull_approved)) None false World_init).1
    = Some {| reason := "CHANGES REQUESTED"; since := T0 - 30 * day |} ∧
  processPull props0 pull_approved World_init =
    (tt, {| metrics := Build_Metrics 1 0 1 1 0 0 1 0;
            calls := [createComment 11
                        (marker STALE_PR +:+ newline +:+
                         "This PR has been in CHANGES REQUESTED for 21 days, and looks abandoned. It will be closed in 10 days if no further commits are pushed to it.")] |}).
Proof. repeat split; vm_compute; reflexivity. Qed.

(** ** The aggregation of the failing checks *)

Lemma js_gt_false_le a t t' :
  js_gt a (Some t) = false → a = Some t' → t' ≤ t.
Proof. intros Hgt ->. simpl in Hgt. apply bool_decide_eq_false in Hgt. lia. Qed.

(** C6 (as amended).  [failingChecks] holds one entry per name.  Each
    source is reduced on its own to its most recent result per name; the
    entry of a name is the failing most recent commit status of that name
    when there is one, whatever the check runs of that name are, and else
    the failing most recent check run of that name.  So an entry comes
    from a failure of one source that no result of the same name in the
    same source is more recent than. *)
Theorem C6_failingChecks_per_source check_runs statuses name :
  failingChecks check_runs statuses !! name =
    match s ← mostRecent CommitStatus.context CommitStatus.updated_at statuses !! name;
          p ← failedStatus s; Some p.2 with
    | Some fc => Some fc
    | None =>
        c ← mostRecent CheckRun.name CheckRun.completed_at check_runs !! name;
        p ← failedCheckRun c; Some p.2
    end ∧
  ∀ fc, failingChecks check_runs statuses !! name = Some fc →
    (∃ s, s ∈ statuses ∧ CommitStatus.context s = name ∧
          CommitStatus.state s = "failure" ∧
          CommitStatus.updated_at s = Some (when fc) ∧
          ∀ s' t', s' ∈ statuses → CommitStatus.context s' = name →
                   CommitStatus.updated_at s' = Some t' → t' ≤ when fc)
    ∨ (∃ c, c ∈ check_runs ∧ CheckRun.name c = name ∧
            CheckRun.conclusion c = Some "failure" ∧
            CheckRun.completed_at c = Some (when fc) ∧
            ∀ c' t', c' ∈ check_runs → CheckRun.name c' = name →
                     CheckRun.completed_at c' = Some t' → t' ≤ when fc).
Proof.
  split; [apply failingChecks_lookup|].
  intros fc. rewrite failingChecks_lookup.
  destruct (mostRecent CommitStatus.context CommitStatus.updated_at statuses !! name)
    as [s|] eqn:Hs; simpl.
  - destruct (failedStatus s) as [p|] eqn:Hp; simpl.
    + intros [= <-]. left. exists s.
      apply mostRecent_lookup_Some in Hs as (Hin & Hname & Hmax).
      apply failedStatus_Some in Hp as (Hfail & _ & Hat).
      repeat split; try done.
      intros s' t' Hin' Hname' Hat'.
      apply (js_gt_false_le (CommitStatus.updated_at s')); [|done].
      rewrite <- Hat. by apply Hmax.
    + clear Hs Hp s.
      destruct (mostRecent CheckRun.name CheckRun.completed_at check_runs !! name)
        as [c|] eqn:Hc; simpl; [|done].
      destruct (failedCheckRun c) as [p|] eqn:Hp; simpl; [|done].
      intros [= <-]. right. exists c.
      apply mostRecent_lookup_Some in Hc as (Hin & Hname & Hmax).
      apply failedCheckRun_Some in Hp as (Hfail & _ & Hat).
      repeat split; try done.
      intros c' t' Hin' Hname' Hat'.
      apply (js_gt_false_le (CheckRun.completed_at c')); [|done].
      rewrite <- Hat. by apply Hmax.
  - destruct (mostRecent CheckRun.name CheckRun.completed_at check_runs !! name)
      as [c|] eqn:Hc; simpl; [|done].
    destruct (failedCheckRun c) as [p|] eqn:Hp; simpl; [|done].
    intros [= <-]. right. exists c.
    apply mostRecent_lookup_Some in Hc as (Hin & Hname & Hmax).
    apply failedCheckRun_Some in Hp as (Hfail & _ & Hat).
    repeat split; try done.
    intros c' t' Hin' Hname' Hat'.
    apply (js_gt_false_le (CheckRun.completed_at c')); [|done].
    rewrite <- Hat. by apply Hmax.
Qed.

(** C6 at two check runs of one name and no commit status. *)
Lemma C6_failingChecks_per_source_witness :
  let check_runs := [CheckRun.mk "build" (Some "failure") (Some (T0 - 3 * day));
                     CheckRun.mk "build" (Some "success") (Some (T0 - 5 * day))] in
  ∃ c, c ∈ check_runs ∧ CheckRun.name c = "build" ∧
       CheckRun.conclusion c = Some "failure" ∧
       CheckRun.completed_at c = Some (T0 - 3 * day).
Proof.
  intros check_runs.
  destruct (C6_failingChecks_per_source check_runs [] "build") as [_ Hsound].
  destruct (Hsound {| when := T0 - 3 * day |}) as [(s & Hs & _)|(c & Hc)].
  - vm_compute. reflexivity.
  - by apply elem_of_nil in Hs.
  - exists c. simpl in Hc. tauto.
Defined.

(** The claim of C6 as it is stated fails across the two sources.  A check
    run that failed 3 days ago and a commit status of the same name that
    failed 5 days ago leave the entry of the older one, the status; a check
    run that failed 5 days ago and a later successful commit status of
    the same name leave the entry of the check run, although the most
    recent result of that name is a success. *)
Lemma C6_counterexample :
  (let check_runs := [CheckRun.mk "build" (Some "failure") (Some (T0 - 3 * day))] in
   let statuses := [CommitStatus.mk "build" "failure" (Some (T0 - 5 * day))] in
   failingChecks check_runs statuses !! "build" = Some {| when := T0 - 5 * day |} ∧
   failingChecks_across_sources check_runs statuses !! "build"
     = Some {| when := T0 - 3 * day |}) ∧
  (let check_runs := [CheckRun.mk "build" (Some "failure") (Some (T0 - 5 * day))] in
   let statuses := [CommitStatus.mk "build" "success" (Some (T0 - 3 * day))] in
   failingChecks check_runs statuses !! "build" = Some {| when := T0 - 5 * day |} ∧
   failingChecks_across_sources check_runs statuses !! "build" = None).
Proof. repeat split; vm_compute; reflexivity. Qed.

(** ** The scenarios of the specification *)

(** A change request of 30 days ago and no comment: the pull request is
    warned. *)
Example scenario_warn :
  findAll props0 [pull_changes_requested []] World_init =
    (tt, {| metrics := Build_Metrics 1 0 1 1 0 0 1 0;
            calls := [createComment 7
                        (marker STALE_PR +:+ newline +:+
                         "This PR has been in CHANGES REQUESTED for 21 days, and looks abandoned. It will be closed in 10 days if no further commits are pushed to it.")] |}).
Proof. vm_compute. reflexivity. Qed.

(** A warning of 5 days ago: nothing is done. *)
Example scenario_grace :
  findAll props0 [pull_changes_requested [stale_warning_comment (T0 - 5 * day)]]
    World_init =
    (tt, {| metrics := Build_Metrics 1 0 1 1 0 0 0 0; calls := [] |}).
Proof. vm_compute. reflexivity. Qed.

(** A warning of 15 days ago: the pull request is closed. *)
Example scenario_close :
  findAll props0 [pull_changes_requested [stale_warning_comment (T0 - 15 * day)]]
    World_init =
    (tt, {| metrics := Build_Metrics 1 0 1 1 0 0 0 1;
            calls := [createComment 7
                        "No more work is being done on this PR. It will now be closed.";
                      updateClosed 7] |}).
Proof. vm_compute. reflexivity. Qed.

(** A skip label: the pull request is counted and left alone. *)
Example scenario_skip :
  findAll (StalePrFinderProps.mk 21 10 None None None (Some ["pinned"]) None None None false)
    [PullObs.mk 12 [LabelObject (Some "pinned")] [] []
       [Review.mk "MEMBER" "CHANGES_REQUESTED" (Some (T0 - 30 * day))]
       [Commit.mk (Some (T0 - 40 * day))] "clean" [] T0]
    World_init =
    (tt, {| metrics := Build_Metrics 1 1 0 0 0 0 0 0; calls := [] |}).
Proof. vm_compute. reflexivity. Qed.

(** * Further properties of the code *)

(** ** [mostRecent] and [maxTime] *)

(** X1.  [mostRecent] has an entry for a name exactly when the name is not
    the name of a member of [Object.prototype] and the list has an element
    of that name; the entry is an element of that name, and no element of
    that name carries a later time. *)
Theorem mostRecent_one_entry_per_name {A} (idKey : A → string)
    (timeKey : A → option Time) (xs : list A) (k : string) :
  (is_Some (mostRecent idKey timeKey xs !! k) ↔
   ((k ∉ Object_prototype) ∧ ∃ y, y ∈ xs ∧ idKey y = k)) ∧
  (∀ x, mostRecent idKey timeKey xs !! k = Some x →
        x ∈ xs ∧ idKey x = k ∧
        ∀ y t t', y ∈ xs → idKey y = k →
                  timeKey x = Some t → timeKey y = Some t' → t' ≤ t).
Proof.
  split.
  - split.
    + intros [x Hx]. split.
      * intros Hk. by rewrite (mostRecent_inherited idKey timeKey xs k Hk) in Hx.
      * exists x. by apply mostRecent_lookup_Some in Hx as (? & ? & _).
    + intros (Hown & y & Hy & <-). by apply mostRecent_is_Some.
  - intros x Hx. apply mostRecent_lookup_Some in Hx as (Hin & Hk & Hmax).
    split; [done|]. split; [done|].
    intros y t t' Hy Hky Ht Ht'.
    apply (js_gt_false_le (timeKey y)); [|done]. rewrite <- Ht. by apply Hmax.
Qed.

Lemma mostRecent_fold_kept {A} (idKey : A → string) (timeKey : A → option Time)
    (xs : list A) (x : A) (ret : gmap string A) :
  ret !! idKey x = Some x →
  (∀ y, y ∈ xs → idKey y = idKey x → js_gt (timeKey y) (timeKey x) = false) →
  foldl (λ ret x,
           let key := idKey x in
           match get ret key with
           | undefined => <[key := x]> ret
           | own old =>
               if js_gt (timeKey x) (timeKey old) then <[key := x]> ret else ret
           | inherited => ret
           end) ret xs !! idKey x = Some x.
Proof.
  revert ret. induction xs as [|y xs IH]; intros ret Hret Hlater; simpl; [done|].
  apply IH; [|intros z Hz; apply Hlater; by right].
  destruct (decide (idKey y = idKey x)) as [Heq|Hne].
  - rewrite Heq, (get_own _ _ _ Hret). rewrite (Hlater y); [done|by left|done].
  - destruct (get ret (idKey y)); [destruct (js_gt _ _)| |];
      by rewrite ?lookup_insert_ne.
Qed.

(** X2.  A first element whose name is not the name of a member of
    [Object.prototype] keeps the entry of its name exactly when no later
    element of that name is strictly more recent: among equal times the
    first one listed wins, and a first element without a time is never
    replaced, whatever follows. *)
Theorem mostRecent_first_listed_kept {A} (idKey : A → string)
    (timeKey : A → option Time) (x : A) (xs : list A) :
  idKey x ∉ Object_prototype →
  (mostRecent idKey timeKey (x :: xs) !! idKey x = Some x ↔
   ∀ y, y ∈ xs → idKey y = idKey x → js_gt (timeKey y) (timeKey x) = false) ∧
  (timeKey x = None → mostRecent idKey timeKey (x :: xs) !! idKey x = Some x).
Proof.
  intros Hown.
  assert ((∀ y, y ∈ xs → idKey y = idKey x → js_gt (timeKey y) (timeKey x) = false) →
          mostRecent idKey timeKey (x :: xs) !! idKey x = Some x) as Hkept.
  { intros Hlater. unfold mostRecent; simpl.
    rewrite get_undefined by (done || apply lookup_empty).
    apply mostRecent_fold_kept; [by rewrite lookup_insert_eq|done]. }
  split; [split; [|done]|].
  - intros Hx y Hy Hk.
    apply mostRecent_lookup_Some in Hx as (_ & _ & Hmax).
    apply Hmax; [by right|done].
  - intros Hnone. apply Hkept. intros y _ _. rewrite Hnone.
    by destruct (timeKey y).
Qed.

(** X2 at an unfinished check run listed before a failed one. *)
Lemma mostRecent_first_listed_kept_witness :
  mostRecent CheckRun.name CheckRun.completed_at
    [CheckRun.mk "build" None None;
     CheckRun.mk "build" (Some "failure") (Some (T0 - 30 * day))] !! "build"
  = Some (CheckRun.mk "build" None None).
Proof.
  refine (proj2 (mostRecent_first_listed_kept CheckRun.name CheckRun.completed_at
                   (CheckRun.mk "build" None None)
                   [CheckRun.mk "build" (Some "failure") (Some (T0 - 30 * day))] _) _).
  - apply (bool_decide_eq_false_1 _). vm_compute. reflexivity.
  - reflexivity.
Defined.

(** X25.  A check run or a commit status named like a member of
    [Object.prototype] is never stored by [mostRecent], so that
    [failingChecks] has no entry of such a name, whatever failed under
    it. *)
Theorem failingChecks_no_inherited_name check_runs statuses name :
  name ∈ Object_prototype →
  mostRecent CheckRun.name CheckRun.completed_at check_runs !! name = None ∧
  mostRecent CommitStatus.context CommitStatus.updated_at statuses !! name = None ∧
  failingChecks check_runs statuses !! name = None.
Proof.
  intros Hname.
  pose proof (mostRecent_inherited CheckRun.name CheckRun.completed_at
                check_runs name Hname) as Hc.
  pose proof (mostRecent_inherited CommitStatus.context CommitStatus.updated_at
                statuses name Hname) as Hs.
  split; [done|]. split; [done|].
  by rewrite failingChecks_lookup, Hc, Hs.
Qed.

(** X25 at a failed check run named [constructor]. *)
Lemma failingChecks_no_inherited_name_witness :
  failingChecks [CheckRun.mk "constructor" (Some "failure") (Some (T0 - 30 * day))] []
    !! "constructor" = None.
Proof.
  refine (proj2 (proj2 (failingChecks_no_inherited_name
    [CheckRun.mk "constructor" (Some "failure") (Some (T0 - 30 * day))] []
    "constructor" _))).
  apply (bool_decide_unpack _). vm_compute. exact I.
Defined.

(** X3.  [maxTime] is undefined exactly on the empty dictionary; otherwise
    it is the time of one of the entries and no entry is later. *)
Theorem maxTime_latest_entry (xs : gmap string FailedCheck) :
  (maxTime xs = None ↔ xs = ∅) ∧
  ∀ t, maxTime xs = Some t ↔
       (∃ name c, xs !! name = Some c ∧ when c = t) ∧
       (∀ name c, xs !! name = Some c → when c ≤ t).
Proof. split; [apply maxTime_None|apply maxTime_Some]. Qed.

(** X4.  A failing check under a new name moves [maxTime] to the later of
    its time and the former value; it never lowers it. *)
Theorem maxTime_insert_fresh (xs : gmap string FailedCheck) name c :
  xs !! name = None →
  maxTime (<[name := c]> xs) =
    Some (match maxTime xs with
          | Some t => Z.max t (when c)
          | None => when c
          end).
Proof.
  intros Hfresh. apply maxTime_Some.
  destruct (maxTime xs) as [t|] eqn:Hmax.
  - apply maxTime_Some in Hmax as [(name' & c' & Hc' & <-) Hub].
    split.
    + destruct (Z.max_spec (when c') (when c)) as [[_ ->]|[_ ->]].
      * exists name, c. by rewrite lookup_insert_eq.
      * exists name', c'. split; [|done].
        rewrite lookup_insert_ne; [done|]. intros <-. congruence.
    + intros k d. destruct (decide (name = k)) as [<-|Hne].
      * rewrite lookup_insert_eq. intros [= <-]. lia.
      * rewrite lookup_insert_ne by done. intros Hd.
        pose proof (Hub k d Hd). lia.
  - apply maxTime_None in Hmax. subst xs. split.
    + exists name, c. by rewrite lookup_insert_eq.
    + intros k d. destruct (decide (name = k)) as [<-|Hne].
      * rewrite lookup_insert_eq. intros [= <-]. lia.
      * rewrite lookup_insert_ne, lookup_empty by done. done.
Qed.

(** X4 at a second failing check, later than the first. *)
Lemma maxTime_insert_fresh_witness :
  maxTime (<["lint" := {| when := 9 |}]> {[ "build" := {| when := 5 |} ]}) = Some 9.
Proof.
  rewrite (maxTime_insert_fresh {[ "build" := {| when := 5 |} ]} "lint" {| when := 9 |}).
  - reflexivity.
  - reflexivity.
Defined.

(** ** [reviewState], [lastCommit], [hasSkipLabel] *)

(** X5.  With a submitted change request of a member, [reviewState] is
    [changes_requested] at the time of the newest one, approvals
    notwithstanding; without one but with a submitted approval of a member
    it is [approved] at the time of the oldest one; with neither it is
    undefined. *)
Theorem reviewState_by_cases reviews :
  let counts (state : string) (r : Review.t) : Prop :=
    r ∈ reviews ∧ Review.author_association r = "MEMBER" ∧
    is_Some (Review.submitted_at r) ∧ Review.state r = state in
  ((∃ r, counts "CHANGES_REQUESTED" r) →
   ∃ t, reviewState reviews = Some (ReviewState.mk ReviewState.changes_requested t) ∧
        (∃ r, counts "CHANGES_REQUESTED" r ∧ Review.submitted_at r = Some t) ∧
        ∀ r t', counts "CHANGES_REQUESTED" r → Review.submitted_at r = Some t' → t' ≤ t) ∧
  ((∀ r, ¬ counts "CHANGES_REQUESTED" r) → (∃ r, counts "APPROVED" r) →
   ∃ t, reviewState reviews = Some (ReviewState.mk ReviewState.approved t) ∧
        (∃ r, counts "APPROVED" r ∧ Review.submitted_at r = Some t) ∧
        ∀ r t', counts "APPROVED" r → Review.submitted_at r = Some t' → t ≤ t') ∧
  ((∀ r, ¬ counts "CHANGES_REQUESTED" r) → (∀ r, ¬ counts "APPROVED" r) →
   reviewState reviews = None).
Proof.
  intros counts. pose proof (reviewState_spec reviews) as Hspec.
  cbv zeta in Hspec. fold counts in Hspec.
  destruct (reviewState reviews) as [[[] t]|].
  - destruct Hspec as (Hnone & Happroved & Hleast). split; [|split].
    + intros [r Hr]. by destruct (Hnone r).
    + intros _ _. by exists t.
    + intros _ Hno. destruct Happroved as (r & Hr & _). by destruct (Hno r).
  - destruct Hspec as (Hcr & Hgreatest). split; [|split].
    + intros _. by exists t.
    + intros Hno. destruct Hcr as (r & Hr & _). by destruct (Hno r).
    + intros Hno. destruct Hcr as (r & Hr & _). by destruct (Hno r).
  - destruct Hspec as (Hnone & Hnone'). split; [|split].
    + intros [r Hr]. by destruct (Hnone r).
    + intros _ [r Hr]. by destruct (Hnone' r).
    + done.
Qed.

(** X5 at an old approval and two change requests. *)
Lemma reviewState_by_cases_witness :
  ∃ t, reviewState [Review.mk "MEMBER" "APPROVED" (Some 10);
                    Review.mk "MEMBER" "CHANGES_REQUESTED" (Some 20);
                    Review.mk "MEMBER" "CHANGES_REQUESTED" (Some 30)]
       = Some (ReviewState.mk ReviewState.changes_requested t).
Proof.
  destruct (reviewState_by_cases
              [Review.mk "MEMBER" "APPROVED" (Some 10);
               Review.mk "MEMBER" "CHANGES_REQUESTED" (Some 20);
               Review.mk "MEMBER" "CHANGES_REQUESTED" (Some 30)]) as (Hcr & _).
  destruct Hcr as (t & Ht & _).
  - exists (Review.mk "MEMBER" "CHANGES_REQUESTED" (Some 20)).
    split; [right; by left|]. split; [reflexivity|]. split; [by eexists|reflexivity].
  - by exists t.
Defined.

(** X6.  [reviewState] depends only on which submitted reviews of members
    there are: reviews of others, reviews without [submitted_at], the
    order of the list and repetitions play no part. *)
Theorem reviewState_submitted_member_reviews_only reviews reviews' :
  (∀ r, Review.author_association r = "MEMBER" → is_Some (Review.submitted_at r) →
        r ∈ reviews ↔ r ∈ reviews') →
  reviewState reviews = reviewState reviews'.
Proof.
  intros Hsame.
  pose proof (reviewState_spec reviews) as Hspec.
  pose proof (reviewState_spec reviews') as Hspec'.
  cbv zeta in Hspec, Hspec'.
  assert (∀ state r,
            (r ∈ reviews ∧ Review.author_association r = "MEMBER" ∧
             is_Some (Review.submitted_at r) ∧ Review.state r = state) ↔
            (r ∈ reviews' ∧ Review.author_association r = "MEMBER" ∧
             is_Some (Review.submitted_at r) ∧ Review.state r = state)) as Hcounts.
  { intros state r. split; intros (Hin & Hm & Hs & Hst);
      (split; [by apply (Hsame r Hm Hs)|done]). }
  destruct (reviewState reviews) as [[[] t]|], (reviewState reviews') as [[[] t']|].
  - destruct Hspec as (_ & (r & Hr & Ht) & Hleast).
    destruct Hspec' as (_ & (r' & Hr' & Ht') & Hleast').
    do 2 f_equal. apply Z.le_antisymm.
    + apply (Hleast r'); [by apply Hcounts|done].
    + apply (Hleast' r); [by apply Hcounts|done].
  - destruct Hspec as (Hnone & _). destruct Hspec' as ((r' & Hr' & _) & _).
    destruct (Hnone r'). by apply Hcounts.
  - destruct Hspec as (_ & (r & Hr & _) & _). destruct Hspec' as (_ & Hnone').
    destruct (Hnone' r). by apply Hcounts.
  - destruct Hspec as ((r & Hr & _) & _). destruct Hspec' as (Hnone' & _).
    destruct (Hnone' r). by apply Hcounts.
  - destruct Hspec as ((r & Hr & Ht) & Hgreatest).
    destruct Hspec' as ((r' & Hr' & Ht') & Hgreatest').
    do 2 f_equal. apply Z.le_antisymm.
    + apply (Hgreatest' r); [by apply Hcounts|done].
    + apply (Hgreatest r'); [by apply Hcounts|done].
  - destruct Hspec as ((r & Hr & _) & _). destruct Hspec' as (Hnone' & _).
    destruct (Hnone' r). by apply Hcounts.
  - destruct Hspec as (_ & Hnone). destruct Hspec' as (_ & (r' & Hr' & _) & _).
    destruct (Hnone r'). by apply Hcounts.
  - destruct Hspec as (Hnone & _). destruct Hspec' as ((r' & Hr' & _) & _).
    destruct (Hnone r'). by apply Hcounts.
  - done.
Qed.

(** X6 at a list with a review of a contributor in front. *)
Lemma reviewState_submitted_member_reviews_only_witness :
  reviewState [Review.mk "CONTRIBUTOR" "CHANGES_REQUESTED" (Some 50);
               Review.mk "MEMBER" "APPROVED" (Some 10)]
  = reviewState [Review.mk "MEMBER" "APPROVED" (Some 10)].
Proof.
  apply reviewState_submitted_member_reviews_only.
  intros r Hmember _. split.
  - intros [->|Hin]%elem_of_cons; [discriminate Hmember|done].
  - intros Hin. by right.
Defined.

(** X7.  [lastCommit] is the committer date of the last commit that has
    one: a commit without a date at the end of the list is passed over,
    and the result is undefined exactly when no commit has a date. *)
Theorem lastCommit_last_dated commits :
  (∀ c, lastCommit (commits ++ [c]) =
        match Commit.committer_date c with
        | Some t => Some t
        | None => lastCommit commits
        end) ∧
  (lastCommit commits = None ↔ ∀ c, c ∈ commits → Commit.committer_date c = None).
Proof.
  unfold lastCommit. split.
  - intros c. rewrite omap_app; simpl.
    destruct (Commit.committer_date c) as [t|]; simpl.
    + by rewrite last_snoc.
    + by rewrite app_nil_r.
  - rewrite last_None. split.
    + intros Hnil c Hc. destruct (Commit.committer_date c) as [t|] eqn:Ht; [|done].
      assert (t ∈ omap Commit.committer_date commits) as Hin.
      { apply list_elem_of_omap. by exists c. }
      rewrite Hnil in Hin. by apply elem_of_nil in Hin.
    + intros Hnone. destruct (omap Commit.committer_date commits) as [|t ts] eqn:Ho;
        [done|].
      assert (t ∈ omap Commit.committer_date commits) as Hin by (rewrite Ho; by left).
      apply list_elem_of_omap in Hin as (c & Hc & Ht).
      rewrite (Hnone c Hc) in Ht. done.
Qed.

Lemma hasSkipLabel_true props labels :
  hasSkipLabel props labels = true ↔
  ∃ skipLabels l,
    StalePrFinderProps.skipLabels props = Some skipLabels ∧
    (LabelString l ∈ labels ∨ LabelObject (Some l) ∈ labels) ∧
    l ≠ "" ∧ l ∈ skipLabels.
Proof.
  unfold hasSkipLabel.
  destruct (StalePrFinderProps.skipLabels props) as [skipLabels|];
    [|split; [done|by intros (? & ? & ? & _)]].
  rewrite existsb_exists. split.
  - intros (o & Hin & Ho). apply in_map_iff in Hin as (label & <- & Hin).
    apply list_elem_of_In in Hin.
    destruct label as [l|[l|]]; simpl in Ho; [| |done];
      apply andb_true_iff in Ho as [Hne%bool_decide_eq_true Hl%bool_decide_eq_true];
      exists skipLabels, l; (split; [done|]); (split; [|done]); [by left|by right].
  - intros (skip & l & [= <-] & Hin & Hne & Hl). exists (Some l). split.
    + apply in_map_iff.
      destruct Hin as [Hin|Hin]; apply list_elem_of_In in Hin;
        [by exists (LabelString l)|by exists (LabelObject (Some l))].
    + by rewrite !bool_decide_eq_true_2.
Qed.

(** X8.  [hasSkipLabel] holds exactly when a skip list is configured and a
    label of the pull request, given as a string or as the name of a
    label object, is not empty and is on the list; without a skip list,
    and for a label object without a name, it never holds.  A pull request
    for which it holds is counted as processed and as skipped, and nothing
    else happens to it. *)
Theorem hasSkipLabel_iff props pull :
  (hasSkipLabel props (PullObs.labels pull) = true ↔
   ∃ skipLabels l,
     StalePrFinderProps.skipLabels props = Some skipLabels ∧
     (LabelString l ∈ PullObs.labels pull ∨ LabelObject (Some l) ∈ PullObs.labels pull) ∧
     l ≠ "" ∧ l ∈ skipLabels) ∧
  (hasSkipLabel props (PullObs.labels pull) = true →
   ∀ w, processPull props pull w = (tt, counted c_skipped (counted c_prsProcessed w))).
Proof.
  split; [apply hasSkipLabel_true|].
  intros Hskip w. by rewrite processPull_unfold, Hskip.
Qed.

(** X8 at a pull request labelled [pinned], with [pinned] on the list. *)
Lemma hasSkipLabel_iff_witness :
  processPull
    (StalePrFinderProps.mk 21 10 None None None (Some ["pinned"]) None None None false)
    (PullObs.mk 12 [LabelObject (Some "pinned")] [] []
       [Review.mk "MEMBER" "CHANGES_REQUESTED" (Some (T0 - 30 * day))]
       [Commit.mk (Some (T0 - 40 * day))] "clean" [] T0) World_init
  = (tt, counted c_skipped (counted c_prsProcessed World_init)).
Proof.
  apply (proj2 (hasSkipLabel_iff
                  (StalePrFinderProps.mk 21 10 None None None (Some ["pinned"])
                     None None None false)
                  (PullObs.mk 12 [LabelObject (Some "pinned")] [] []
                     [Review.mk "MEMBER" "CHANGES_REQUESTED" (Some (T0 - 30 * day))]
                     [Commit.mk (Some (T0 - 40 * day))] "clean" [] T0))).
  reflexivity.
Defined.

(** X22.  [memberReviewed] holds exactly when a review of a member, or a
    comment of a member, carries a [submitted_at]; no time is compared,
    and entries of other authors do not count. *)
Theorem memberReviewed_iff reviews comments :
  memberReviewed reviews comments = true ↔
  (∃ r, r ∈ reviews ∧ Review.author_association r = "MEMBER" ∧
        is_Some (Review.submitted_at r))
  ∨ (∃ c, c ∈ comments ∧ Comment.author_association c = "MEMBER" ∧
          is_Some (Comment.submitted_at c)).
Proof.
  unfold memberReviewed. rewrite orb_true_iff, !bool_decide_eq_true.
  assert (∀ {A} (l : list A), (0 < length l)%nat ↔ ∃ x, x ∈ l) as Hlen.
  { intros A [|x l]; simpl; split.
    - lia.
    - by intros [? ?%elem_of_nil].
    - intros _. exists x. by left.
    - lia. }
  rewrite !Hlen. setoid_rewrite list_elem_of_filter.
  setoid_rewrite list_elem_of_filter. split.
  - intros [(c & ? & ? & ?)|(r & ? & ? & ?)]; [right|left]; eauto.
  - intros [(r & ? & ? & ?)|(c & ? & ? & ?)]; [right|left]; eauto.
Qed.

(** ** [mostRecentWarnings] and the marker *)

Lemma mostRecentWarnings_cons c comments m :
  mostRecentWarnings (c :: comments) m =
    match mostRecentWarnings comments m with
    | Some t => Some t
    | None => if body_includes c (marker m) then Some (Comment.created_at c) else None
    end.
Proof.
  unfold mostRecentWarnings. rewrite reverse_cons, foldl_snoc.
  set (ret := foldl _ Warnings_empty (reverse comments)).
  simpl. unfold Warnings_has, Warnings_set.
  destruct m; simpl;
    destruct (ret STALE_PR) as [t1|] eqn:H1;
    destruct (ret MERGE_CONFLICTS) as [t2|] eqn:H2;
    destruct (body_includes c (marker STALE_PR)) eqn:Hb1;
    destruct (body_includes c (marker MERGE_CONFLICTS)) eqn:Hb2;
    simpl;
    repeat (first [ rewrite H1 | rewrite H2
                  | rewrite bool_decide_eq_true_2 by eauto
                  | rewrite bool_decide_eq_false_2 by (by intros [? ?])
                  | progress simpl
                  | case_decide ]);
    congruence.
Qed.

Lemma mostRecentWarnings_last comments m :
  mostRecentWarnings comments m =
    Comment.created_at <$>
      last (filter (λ c, body_includes c (marker m) = true) comments).
Proof.
  induction comments as [|c comments IH]; [done|].
  rewrite mostRecentWarnings_cons, IH, filter_cons.
  destruct (last (filter _ comments)) as [c'|] eqn:Hlast; simpl.
  - case_decide; [|by rewrite Hlast].
    rewrite last_cons, Hlast. done.
  - apply last_None in Hlast.
    destruct (body_includes c (marker m)) eqn:Hb.
    + rewrite decide_True by done. by rewrite Hlast.
    + rewrite decide_False by done. by rewrite Hlast.
Qed.

(** X9.  For each marker, [mostRecentWarnings] gives the creation time of
    the last comment of the list whose body includes the marker, and
    nothing exactly when no body includes it; comments without a body are
    passed over, and the two markers do not interfere. *)
Theorem mostRecentWarnings_last_marked comments m :
  mostRecentWarnings comments m =
    Comment.created_at <$>
      last (filter (λ c, body_includes c (marker m) = true) comments) ∧
  (mostRecentWarnings comments m = None ↔
   ∀ c, c ∈ comments → body_includes c (marker m) = false).
Proof.
  split; [apply mostRecentWarnings_last|].
  rewrite mostRecentWarnings_last, fmap_None, last_None. split.
  - intros Hnil c Hc. destruct (body_includes c (marker m)) eqn:Hb; [|done].
    by destruct (filter_nil_not_elem_of _ _ c Hnil Hb).
  - intros Hnone. induction comments as [|c comments IH]; [done|].
    rewrite filter_cons_False.
    + apply IH. intros c' Hc'. apply Hnone. by right.
    + rewrite (Hnone c); [done|by left].
Qed.

Lemma prefix_app p s : String.prefix p (p +:+ s) = true.
Proof.
  induction p as [|c p IH]; simpl; [by destruct s|].
  by destruct (Ascii.ascii_dec c c).
Qed.

Lemma includes_prefix p s : includes (p +:+ s) p = true.
Proof.
  assert (∀ t, String.prefix p t = true → includes t p = true) as Hincl.
  { intros [|c t] Ht.
    - change (includes "" p) with (String.prefix p "" || false). by rewrite Ht.
    - change (includes (String c t) p)
        with (String.prefix p (String c t) || includes t p).
      by rewrite Ht. }
  apply Hincl, prefix_app.
Qed.

(** X10.  The comment that [performAction] writes for [warn] starts with
    the STALE PR marker and is found again: whatever the configured
    message and the verdict, once that comment is the newest of the pull
    request, [mostRecentWarnings] gives its creation time for the STALE PR
    marker. *)
Theorem warn_comment_is_detected props n stale w :
  ∃ body,
    performAction props n warn stale w =
      (tt, called (if StalePrFinderProps.dryRun props
                   then consoleLog (pretty n +:+ ": COMMENT " +:+ body)
                   else createComment n body) (counted c_warned w)) ∧
    String.prefix (marker STALE_PR) body = true ∧
    ∀ comments created_at author_association submitted_at,
      mostRecentWarnings
        (comments ++ [Comment.mk (Some body) created_at author_association submitted_at])
        STALE_PR = Some created_at.
Proof.
  eexists. split; [|split].
  - unfold performAction. run_M. by rewrite addComment_run.
  - apply prefix_app.
  - intros comments t a sub.
    rewrite mostRecentWarnings_last, filter_app, filter_cons_True.
    + by rewrite filter_nil, last_snoc.
    + unfold body_includes. cbn [Comment.body]. apply includes_prefix.
Qed.

(** ** The writes of one iteration *)

Section writes.
Variable props : StalePrFinderProps.t.
Implicit Types (w : World) (pull : PullObs.t).

Lemma addComment_emitted n body w :
  addComment props n body w = (tt, called (emitted props (createComment n body)) w).
Proof. unfold addComment, emitted. by destruct (StalePrFinderProps.dryRun props). Qed.

Lemma addLabels_emitted n labels w :
  addLabels props n labels w = (tt, called (emitted props (addLabelsCall n labels)) w).
Proof. unfold addLabels, emitted. by destruct (StalePrFinderProps.dryRun props). Qed.

Lemma closeIssue_emitted n w :
  closeIssue props n w = (tt, called (emitted props (updateClosed n)) w).
Proof. unfold closeIssue, emitted. by destruct (StalePrFinderProps.dryRun props). Qed.

(** The world after [performAction]: the counter of the action and the
    writes of the action, in their order. *)
Lemma performAction_world n action stale w :
  ∃ new,
    performAction props n action stale w =
      (tt, {| metrics := match action with
                         | nothing => metrics w
                         | warn => increment c_warned (metrics w)
                         | close => increment c_closed (metrics w)
                         end;
              calls := calls w ++ (emitted props <$> new) |}) ∧
    match action with
    | nothing => new = []
    | warn => ∃ body, new = [createComment n body]
    | close =>
        ∃ body,
          match StalePrFinderProps.closeLabel props with
          | Some l =>
              if bool_decide (l ≠ "")
              then new = [createComment n body; addLabelsCall n [l]; updateClosed n]
              else new = [createComment n body; updateClosed n]
          | None => new = [createComment n body; updateClosed n]
          end
    end.
Proof.
  destruct action; unfold performAction; run_M.
  - exists []. split; [|done]. simpl. rewrite app_nil_r. by destruct w.
  - eexists [_]. rewrite addComment_emitted. split; [done|]. by eexists.
  - rewrite addComment_emitted.
    destruct (StalePrFinderProps.closeLabel props) as [l|] eqn:Hl.
    + case_bool_decide as Hne; simpl.
      * rewrite addLabels_emitted, closeIssue_emitted. eexists [_; _; _].
        unfold called; simpl. rewrite <- !app_assoc. split; [done|].
        by eexists.
      * rewrite closeIssue_emitted. eexists [_; _].
        unfold called; simpl. rewrite <- !app_assoc. split; [done|].
        by eexists.
    + rewrite closeIssue_emitted. eexists [_; _].
      unfold called; simpl. rewrite <- !app_assoc. split; [done|]. by eexists.
Qed.
End writes.

Lemma addMergeConflictWarning_world props n w :
  ∃ body, (addMergeConflictWarning props n w).2
          = called (emitted props (createComment n body)) w.
Proof. unfold addMergeConflictWarning. eexists. by rewrite addComment_emitted. Qed.

(** The writes and the counters of one iteration. *)
Lemma processPull_outcome props pull w :
  ∃ new,
    calls (processPull props pull w).2 = (calls w ++ (emitted props <$> new))%list ∧
    prsProcessed (metrics (processPull props pull w).2) = S (prsProcessed (metrics w)) ∧
    iteration_writes props (PullObs.number pull) (metrics w)
      (metrics (processPull props pull w).2) new.
Proof.
  rewrite processPull_unfold. unfold iteration_writes.
  destruct (hasSkipLabel props (PullObs.labels pull)).
  { exists []. simpl. rewrite app_nil_r. destruct (metrics w); simpl.
    split; [done|]. split; [done|]. left. repeat split; lia. }
  destruct (classify_cases props (PullObs.number pull) (PullObs.now pull)
              (reviewState (PullObs.reviews pull)) (lastCommit (PullObs.commits pull))
              (buildFailTime props
                 (failingChecks (PullObs.check_runs pull) (PullObs.statuses pull)))
              (bool_decide (PullObs.mergeable_state pull = "dirty"))
              (counted c_prsProcessed w)) as (v & w1 & -> & Hcases).
  rewrite resolveAction_run.
  assert (∀ st c,
            c = c_staleDueToChangesRequested ∨ c = c_staleDueToBuildFailing
            ∨ c = c_staleDueToMergeConflicts →
            let w2 := (performAction props (PullObs.number pull)
                         (decideAction props (PullObs.now pull) st
                            (mostRecentWarnings (PullObs.comments pull) STALE_PR)
                            (memberReviewed (PullObs.reviews pull)
                               (PullObs.comments pull)))
                         (Some st)
                         (counted c_stalePrs (counted c (counted c_prsProcessed w)))).2 in
            ∃ new,
              calls w2 = (calls w ++ (emitted props <$> new))%list ∧
              prsProcessed (metrics w2) = S (prsProcessed (metrics w)) ∧
              iteration_writes props (PullObs.number pull) (metrics w) (metrics w2) new)
    as Hstale.
  { intros st c Hc. cbv zeta. unfold iteration_writes.
    destruct (performAction_world props (PullObs.number pull)
                (decideAction props (PullObs.now pull) st
                   (mostRecentWarnings (PullObs.comments pull) STALE_PR)
                   (memberReviewed (PullObs.reviews pull) (PullObs.comments pull)))
                (Some st) (counted c_stalePrs (counted c (counted c_prsProcessed w))))
      as (new & -> & Hshape).
    exists new. simpl. split; [done|].
    destruct (metrics w) as [p0 sk0 st0 cr0 bf0 mc0 wa0 cl0].
    assert (prsProcessed (increment c_stalePrs (increment c
              (Build_Metrics (S p0) sk0 st0 cr0 bf0 mc0 wa0 cl0))) = S p0
            ∧ warned (increment c_stalePrs (increment c
              (Build_Metrics (S p0) sk0 st0 cr0 bf0 mc0 wa0 cl0))) = wa0
            ∧ closed (increment c_stalePrs (increment c
              (Build_Metrics (S p0) sk0 st0 cr0 bf0 mc0 wa0 cl0))) = cl0
            ∧ skipped (increment c_stalePrs (increment c
              (Build_Metrics (S p0) sk0 st0 cr0 bf0 mc0 wa0 cl0))) = sk0)
      as (Hp & Hw & Hcl & Hsk).
    { destruct Hc as [Hc|[Hc|Hc]]; by subst c. }
    destruct (increment c_stalePrs _) as [p' sk' st' cr' bf' mc' wa' cl'].
    simpl in Hp, Hw, Hcl, Hsk. subst p' wa' cl' sk'.
    destruct (decideAction _ _ _ _ _); simpl.
    - subst new. split; [done|]. left. repeat split; lia.
    - destruct Hshape as [body ->]. split; [done|].
      right; left. exists body. repeat split; lia.
    - destruct Hshape as [body Hshape]. split; [done|].
      destruct (StalePrFinderProps.closeLabel props) as [l|] eqn:Hl;
        [case_bool_decide as Hne|]; subst new.
      + right; right; right. by exists body, l.
      + right; right; left. by exists body.
      + right; right; left. by exists body. }
  unfold iteration_writes in Hstale.
  destruct Hcases as
    [(r & c & _ & _ & _ & -> & ->)
    |[_ [(b & _ & _ & -> & ->)
        |[_ [(c & _ & _ & _ & -> & ->)
            |[(c & _ & _ & _ & _ & _ & -> & ->)
             |(_ & -> & ->)]]]]]].
  - apply Hstale. by left.
  - apply Hstale. right; by left.
  - apply Hstale. right; by right.
  - destruct (addMergeConflictWarning_world props (PullObs.number pull)
                (counted c_prsProcessed w)) as [body ->].
    exists [createComment (PullObs.number pull) body]. simpl.
    destruct (metrics w); simpl. split; [done|]. split; [done|].
    right; left. exists body. repeat split; lia.
  - exists []. simpl. rewrite app_nil_r. destruct (metrics w); simpl.
    split; [done|]. split; [done|]. left. repeat split; lia.
Qed.

(** ** When a pull request is closed, and when it is left alone *)

(** X11.  On a stale pull request the resolved action is [close] exactly
    when there is a STALE PR warning that is not earlier than the
    verdict's [since], [memberReviewed] holds, and the warning is older
    than [responseDays] days. *)
Theorem resolveAction_close_iff props pull st w :
  let warnings := mostRecentWarnings (PullObs.comments pull) in
  (resolveAction props pull (Some st) warnings w).1 = close ↔
  ∃ warning,
    warnings STALE_PR = Some warning ∧ since st ≤ warning ∧
    memberReviewed (PullObs.reviews pull) (PullObs.comments pull) = true ∧
    warning + StalePrFinderProps.responseDays props * 24 * 3600 * 1000
      < PullObs.now pull.
Proof.
  cbv zeta. rewrite resolveAction_run; simpl.
  unfold decideAction, outOfGracePeriod, olderThanDays.
  destruct (mostRecentWarnings (PullObs.comments pull) STALE_PR) as [warning|];
    [|split; [done|by intros (? & ? & _)]].
  destruct (memberReviewed _ _); simpl; rewrite ?orb_true_r, ?orb_false_r.
  - case_bool_decide as Hlt.
    + split; [done|]. intros (t & [= <-] & ? & _). lia.
    + case_bool_decide as Hgrace.
      * split; [|done]. intros _. exists warning. repeat split; [lia|done].
      * split; [done|]. intros (t & [= <-] & _ & _ & ?). done.
  - split; [done|]. by intros (? & _ & _ & ? & _).
Qed.

Lemma decideAction_unreviewed props now st warning :
  decideAction props now st warning false = warn.
Proof.
  unfold decideAction. destruct warning; [|done].
  by rewrite orb_true_r.
Qed.

Lemma count_calls_app kind (l1 l2 : list Call) :
  count_calls kind (l1 ++ l2) = (count_calls kind l1 + count_calls kind l2)%nat.
Proof. unfold count_calls. by rewrite filter_app, length_app. Qed.

Lemma emitted_real props (new : list Call) :
  StalePrFinderProps.dryRun props = false → emitted props <$> new = new.
Proof.
  intros Hreal. induction new as [|c new IH]; [done|].
  rewrite fmap_cons, IH. unfold emitted. by rewrite Hreal.
Qed.

(** X12.  A pull request for which [memberReviewed] is false is never
    closed: an iteration on it leaves the counter [closed] as it is and
    makes no closing call, whatever its warnings and their age; and it is
    warned every time it is found stale. *)
Theorem processPull_unreviewed_never_closed props pull w :
  memberReviewed (PullObs.reviews pull) (PullObs.comments pull) = false →
  let w' := (processPull props pull w).2 in
  closed (metrics w') = closed (metrics w) ∧
  count_calls is_updateClosed (calls w') = count_calls is_updateClosed (calls w) ∧
  (warned (metrics w') + stalePrs (metrics w)
   = warned (metrics w) + stalePrs (metrics w'))%nat.
Proof.
  intros Hunreviewed. cbv zeta.
  assert (closed (metrics (processPull props pull w).2) = closed (metrics w) ∧
          (warned (metrics (processPull props pull w).2) + stalePrs (metrics w)
           = warned (metrics w) + stalePrs (metrics (processPull props pull w).2))%nat)
    as [Hclosed Hwarned].
  { rewrite processPull_unfold.
    destruct (hasSkipLabel props (PullObs.labels pull)).
    { simpl. destruct (metrics w); simpl. lia. }
    pose proof (classify_metrics props (PullObs.number pull) (PullObs.now pull)
                  (reviewState (PullObs.reviews pull)) (lastCommit (PullObs.commits pull))
                  (buildFailTime props
                     (failingChecks (PullObs.check_runs pull) (PullObs.statuses pull)))
                  (bool_decide (PullObs.mergeable_state pull = "dirty"))
                  (counted c_prsProcessed w)) as Hm.
    destruct (classify _ _ _ _ _ _ _ _) as [v w1]. simpl in Hm.
    rewrite resolveAction_run.
    destruct Hm as [[-> Hm]|(st & c & -> & Hm & Hc)]; simpl.
    - rewrite Hm. destruct (metrics w); simpl. lia.
    - rewrite Hunreviewed, decideAction_unreviewed, performAction_metrics; simpl.
      rewrite Hm. destruct (metrics w).
      destruct Hc as [[_ ->]|[[_ ->]|[_ ->]]]; simpl; lia. }
  split; [done|]. split; [|done].
  destruct (processPull_outcome props pull w) as (new & -> & _ & Hshape).
  rewrite count_calls_app.
  assert (count_calls is_updateClosed (emitted props <$> new) = 0%nat) as ->; [|lia].
  destruct Hshape as [(-> & _)|[(body & -> & _)|[(body & _ & Hc & _)
                     |(body & l & _ & _ & _ & Hc & _)]]]; [done| |lia..].
  unfold emitted. by destruct (StalePrFinderProps.dryRun props).
Qed.

(** X12 at a pull request whose build fails and that no member reviewed,
    warned 15 days ago. *)
Lemma processPull_unreviewed_never_closed_witness :
  closed (metrics (processPull props0
                     (pull_no_member [stale_warning_comment (T0 - 15 * day)])
                     World_init).2) = 0%nat.
Proof.
  apply (processPull_unreviewed_never_closed props0
           (pull_no_member [stale_warning_comment (T0 - 15 * day)]) World_init).
  reflexivity.
Defined.

Lemma olderThanDays_mono now now' t days :
  now ≤ now' → olderThanDays now t days = true → olderThanDays now' t days = true.
Proof.
  unfold olderThanDays. rewrite !bool_decide_eq_true. lia.
Qed.

Lemma classify_is_Some props n now rs lc bft mc w :
  is_Some (classify props n now rs lc bft mc w).1 ↔
  (∃ r c, rs = Some r ∧ lc = Some c ∧ stale props now (ReviewState.when r) = true)
  ∨ (∃ b, bft = Some b ∧ stale props now b = true)
  ∨ (mc = true ∧ ∃ c, lc = Some c ∧ stale props now c = true).
Proof.
  destruct (classify_cases props n now rs lc bft mc w) as (v & w' & -> & Hcases);
    simpl.
  destruct Hcases as
    [(r & c & -> & -> & Hr & -> & ->)
    |[Hnr [(b & -> & Hb & -> & ->)
        |[Hnb [(c & -> & -> & Hc & -> & ->)
            |[(c & -> & -> & Hc & _ & _ & -> & ->)
             |(Hnone & -> & ->)]]]]]].
  - split; [|by eauto]. intros _. left. by exists r, c.
  - split; [|by eauto]. intros _. right; left. by exists b.
  - split; [|by eauto]. intros _. right; right. split; [done|]. by exists c.
  - split; [by intros [? ?]|].
    intros [(r & c' & -> & [= <-] & Hr)|[(b & -> & Hb)|(_ & c' & [= <-] & Hc')]].
    + by rewrite (Hnr r c) in Hr.
    + by rewrite (Hnb b) in Hb.
    + congruence.
  - split; [by intros [? ?]|].
    intros [(r & c' & -> & -> & Hr)|[(b & -> & Hb)|(-> & c' & -> & Hc')]].
    + by rewrite (Hnr r c') in Hr.
    + by rewrite (Hnb b) in Hb.
    + destruct Hnone as [?|[?|(c & [= <-] & Hc & _)]]; congruence.
Qed.

(** X13.  Staleness does not go away by waiting: with the same facts, a
    pull request that has a verdict at one time has a verdict at every
    later time. *)
Theorem classify_verdict_persists props n now now' rs lc bft mc w w' :
  now ≤ now' →
  is_Some (classify props n now rs lc bft mc w).1 →
  is_Some (classify props n now' rs lc bft mc w').1.
Proof.
  intros Hle. rewrite !classify_is_Some. unfold stale.
  intros [(r & c & -> & -> & Hr)|[(b & -> & Hb)|(-> & c & -> & Hc)]].
  - left. exists r, c. eauto using olderThanDays_mono.
  - right; left. exists b. eauto using olderThanDays_mono.
  - right; right. split; [done|]. exists c. eauto using olderThanDays_mono.
Qed.

(** X13 at a build failure of 25 days ago, seen again a day later. *)
Lemma classify_verdict_persists_witness :
  is_Some (classify props0 8 (T0 + day) None (Some (T0 - 40 * day))
             (Some (T0 - 25 * day)) false World_init).1.
Proof.
  apply (classify_verdict_persists props0 8 T0 (T0 + day) None (Some (T0 - 40 * day))
           (Some (T0 - 25 * day)) false World_init World_init).
  - by vm_compute.
  - by eexists.
Defined.

(** X14.  A pull request without a skip label whose review state and
    build failures are not stale and whose mergeable state is not dirty is
    counted as processed and left alone: no write, no other counter. *)
Theorem processPull_nothing_stale props pull w :
  hasSkipLabel props (PullObs.labels pull) = false →
  (∀ r, reviewState (PullObs.reviews pull) = Some r →
        stale props (PullObs.now pull) (ReviewState.when r) = false) →
  (∀ b, buildFailTime props
          (failingChecks (PullObs.check_runs pull) (PullObs.statuses pull)) = Some b →
        stale props (PullObs.now pull) b = false) →
  PullObs.mergeable_state pull ≠ "dirty" →
  processPull props pull w = (tt, counted c_prsProcessed w).
Proof.
  intros Hskip Hreview Hbuild Hclean.
  rewrite processPull_unfold, Hskip.
  destruct (classify_cases props (PullObs.number pull) (PullObs.now pull)
              (reviewState (PullObs.reviews pull)) (lastCommit (PullObs.commits pull))
              (buildFailTime props
                 (failingChecks (PullObs.check_runs pull) (PullObs.statuses pull)))
              (bool_decide (PullObs.mergeable_state pull = "dirty"))
              (counted c_prsProcessed w)) as (v & w' & -> & Hcases).
  rewrite bool_decide_eq_false_2 in Hcases by done.
  destruct Hcases as
    [(r & c & Hr & _ & Hstale & _)
    |[_ [(b & Hb & Hstale & _)
        |[_ [(c & [=] & _)
            |[(c & [=] & _)
             |(_ & -> & ->)]]]]]].
  - by rewrite (Hreview r Hr) in Hstale.
  - by rewrite (Hbuild b Hb) in Hstale.
  - by rewrite resolveAction_run.
Qed.

(** X14 at a pull request with a change request of 2 days ago. *)
Lemma processPull_nothing_stale_witness :
  processPull props0
    (PullObs.mk 5 [] [] [] [Review.mk "MEMBER" "CHANGES_REQUESTED" (Some (T0 - 2 * day))]
       [Commit.mk (Some (T0 - 3 * day))] "clean" [] T0) World_init
  = (tt, counted c_prsProcessed World_init).
Proof.
  apply processPull_nothing_stale.
  - reflexivity.
  - intros r Hr. vm_compute in Hr. injection Hr as <-. reflexivity.
  - intros b Hb. vm_compute in Hb. discriminate Hb.
  - simpl. discriminate.
Defined.

(** ** The calls of a run *)

(** X15.  Outside the dry-run mode, one iteration makes at most three
    calls, all of them on the pull request at hand: at most one comment,
    which comes first, and a closing call only after a comment and as the
    last call. *)
Theorem processPull_calls props pull w :
  StalePrFinderProps.dryRun props = false →
  ∃ new,
    calls (processPull props pull w).2 = (calls w ++ new)%list ∧
    (length new ≤ 3)%nat ∧
    Forall (λ c, call_target c = Some (PullObs.number pull)) new ∧
    (count_calls is_createComment new ≤ 1)%nat ∧
    (∀ c, head new = Some c → is_createComment c = true) ∧
    (∀ c, c ∈ new → is_updateClosed c = true →
          last new = Some c ∧ count_calls is_createComment new = 1%nat).
Proof.
  intros Hreal.
  destruct (processPull_outcome props pull w) as (new & Hcalls & _ & Hshape).
  rewrite (emitted_real props new Hreal) in Hcalls.
  exists new. split; [done|].
  destruct Hshape as [(-> & _)|[(body & -> & _)|[(body & -> & _)
                     |(body & l & _ & _ & -> & _)]]].
  all: split; [simpl; lia|].
  all: split; [repeat constructor|].
  all: split; [vm_compute; lia|].
  all: split; [by intros c [= <-]|].
  all: intros c Hc Hclose.
  - by apply elem_of_nil in Hc.
  - apply list_elem_of_singleton in Hc. by subst c.
  - apply elem_of_cons in Hc as [->|Hc]; [done|].
    apply list_elem_of_singleton in Hc. by subst c.
  - apply elem_of_cons in Hc as [->|Hc]; [done|].
    apply elem_of_cons in Hc as [->|Hc]; [done|].
    apply list_elem_of_singleton in Hc. by subst c.
Qed.

(** X15 at the closing of a pull request warned 15 days ago. *)
Lemma processPull_calls_witness :
  ∃ new,
    calls (processPull props0
             (pull_changes_requested [stale_warning_comment (T0 - 15 * day)])
             World_init).2 = new ∧
    (length new ≤ 3)%nat.
Proof.
  destruct (processPull_calls props0
              (pull_changes_requested [stale_warning_comment (T0 - 15 * day)])
              World_init eq_refl) as (new & Hcalls & Hlen & _).
  exists new. split; [exact Hcalls|exact Hlen].
Defined.

Lemma forEach_app {A} (body : A → M unit) (xs ys : list A) w :
  forEach body (xs ++ ys) w = forEach body ys (forEach body xs w).2.
Proof.
  revert w. induction xs as [|x xs IH]; intros w; simpl; [done|].
  run_M. destruct (body x w) as [[] w1]. apply IH.
Qed.

(** X16.  [findAll] visits the pull requests from the last listed to the
    first: a run over a list is the run over its later part followed by
    the run over its earlier part. *)
Theorem findAll_last_listed_first props (earlier later : list PullObs.t) w :
  findAll props (earlier ++ later) w =
    findAll props earlier (findAll props later w).2.
Proof. unfold findAll. by rewrite reverse_app, forEach_app. Qed.

Lemma count_calls_cons kind c (l : list Call) :
  count_calls kind (c :: l) = ((if kind c then 1 else 0) + count_calls kind l)%nat.
Proof.
  unfold count_calls. rewrite filter_cons.
  destruct (kind c); [by rewrite decide_True|by rewrite decide_False].
Qed.

Lemma processPull_counters_match_calls props pull w :
  StalePrFinderProps.dryRun props = false →
  let consistent w :=
    closed (metrics w) = count_calls is_updateClosed (calls w) ∧
    (warned (metrics w) + closed (metrics w)
     ≤ count_calls is_createComment (calls w))%nat ∧
    (count_calls is_createComment (calls w) + skipped (metrics w)
     ≤ prsProcessed (metrics w))%nat in
  consistent w → consistent (processPull props pull w).2.
Proof.
  intros Hreal consistent (Hclosed & Hwarned & Hcomments). unfold consistent.
  destruct (processPull_outcome props pull w) as (new & -> & -> & Hshape).
  rewrite (emitted_real props new Hreal), !count_calls_app.
  destruct Hshape as [(-> & Hw & Hc & Hs)|[(body & -> & Hc & Hw & Hs)
                     |[(body & -> & Hc & Hw & Hs)
                      |(body & l & _ & _ & -> & Hc & Hw & Hs)]]];
    rewrite Hc, ?Hs, ?count_calls_cons; simpl;
    change (count_calls is_updateClosed []) with 0%nat;
    change (count_calls is_createComment []) with 0%nat; lia.
Qed.

(** X17.  Outside the dry-run mode, at the end of a run the counter
    [closed] is the number of closing calls made, every warning and every
    closing has its comment, and no more than one comment was written per
    pull request that was not skipped. *)
Theorem findAll_counters_match_calls props pulls :
  StalePrFinderProps.dryRun props = false →
  let w := (findAll props pulls World_init).2 in
  closed (metrics w) = count_calls is_updateClosed (calls w) ∧
  (warned (metrics w) + closed (metrics w)
   ≤ count_calls is_createComment (calls w))%nat ∧
  (count_calls is_createComment (calls w) + skipped (metrics w)
   ≤ prsProcessed (metrics w))%nat.
Proof.
  intros Hreal. cbv zeta. unfold findAll.
  generalize (reverse pulls). intros l.
  induction l as [|pull l IH] using rev_ind.
  - vm_compute. lia.
  - rewrite forEach_app; simpl. run_M.
    destruct (processPull props pull (forEach (processPull props) l World_init).2)
      as [[] w'] eqn:Hw'.
    change w' with ((tt, w').2). rewrite <- Hw'.
    by apply processPull_counters_match_calls.
Qed.

(** X17 at a run that warns one pull request and closes another. *)
Lemma findAll_counters_match_calls_witness :
  closed (metrics (findAll props0
                     [pull_changes_requested [stale_warning_comment (T0 - 15 * day)];
                      pull_no_member []] World_init).2)
  = count_calls is_updateClosed
      (calls (findAll props0
                [pull_changes_requested [stale_warning_comment (T0 - 15 * day)];
                 pull_no_member []] World_init).2).
Proof.
  apply (findAll_counters_match_calls props0
           [pull_changes_requested [stale_warning_comment (T0 - 15 * day)];
            pull_no_member []] eq_refl).
Defined.

(** ** [index.ts]: [verifyInt] and the configuration *)

Lemma digit_value_pretty_N_char d :
  (d < 10)%N → digit_value (pretty_N_char d) = Some d.
Proof.
  intros Hd.
  assert (d = 0 ∨ d = 1 ∨ d = 2 ∨ d = 3 ∨ d = 4 ∨ d = 5 ∨ d = 6 ∨ d = 7
          ∨ d = 8 ∨ d = 9)%N as Hcases by lia.
  repeat (destruct Hcases as [->|Hcases]; [reflexivity|]). by subst d.
Qed.

Lemma parse_digits_pretty_N_go x s :
  parse_digits 0 (pretty_N_go x s) = parse_digits x s.
Proof.
  revert s. induction (N.lt_wf_0 x) as [x _ IH]; intros s.
  destruct (decide (x = 0)%N) as [->|Hx]; [by rewrite pretty_N_go_0|].
  rewrite pretty_N_go_step by lia.
  rewrite IH by (apply N.div_lt; lia). simpl.
  rewrite digit_value_pretty_N_char by (apply N.mod_lt; lia).
  f_equal. pose proof (N.div_mod x 10 ltac:(lia)) as Hdm. lia.
Qed.

Lemma pretty_N_go_head x s :
  (0 < x)%N →
  ∃ d rest, (d < 10)%N ∧ pretty_N_go x s = String (pretty_N_char d) rest.
Proof.
  revert s. induction (N.lt_wf_0 x) as [x _ IH]; intros s Hx.
  rewrite pretty_N_go_step by done.
  destruct (decide (x `div` 10 = 0)%N) as [->|Hdiv].
  - rewrite pretty_N_go_0. exists (x `mod` 10)%N, s.
    split; [apply N.mod_lt; lia|done].
  - apply IH; [apply N.div_lt; lia|by apply N.neq_0_lt_0].
Qed.

Lemma parseInt_digits c rest :
  is_Some (digit_value c) →
  parseInt (String c rest) = Int (Z.of_N (parse_digits 0 (String c rest))) ∧
  parseInt (String "-"%char (String c rest))
    = Int (- Z.of_N (parse_digits 0 (String c rest))).
Proof.
  intros [d Hd].
  remember (parse_digits 0 (String c rest)) as v eqn:Hv.
  destruct c as [[] [] [] [] [] [] [] []];
    vm_compute in Hd; try discriminate Hd;
    unfold parseInt; cbn -[parse_digits Z.mul Z.of_N is_white_space digit_value];
    repeat match goal with
           | |- context [is_white_space ?c] =>
               let b := eval vm_compute in (is_white_space c) in
               change (is_white_space c) with b
           | |- context [bool_decide (is_Some (digit_value ?c))] =>
               let b := eval vm_compute in (bool_decide (is_Some (digit_value c))) in
               change (bool_decide (is_Some (digit_value c))) with b
           end;
    cbn -[parse_digits Z.mul Z.of_N]; rewrite <- Hv;
    split; f_equal; lia.
Qed.

(** [parseInt] reads back the decimal rendering of an integer. *)
Lemma parseInt_pretty (z : Z) : parseInt (pretty z) = Int z.
Proof.
  assert (∀ p : positive,
            ∃ d rest, (d < 10)%N ∧
              pretty (N.pos p) = String (pretty_N_char d) rest ∧
              parse_digits 0 (String (pretty_N_char d) rest) = N.pos p) as Hpos.
  { intros p. unfold pretty, pretty_N. rewrite decide_False by done.
    destruct (pretty_N_go_head (N.pos p) "") as (d & rest & Hd & Heq); [lia|].
    exists d, rest. split; [done|]. split; [done|].
    rewrite <- Heq. by rewrite parse_digits_pretty_N_go. }
  destruct z as [|p|p].
  - reflexivity.
  - destruct (Hpos p) as (d & rest & Hd & Heq & Hparse).
    change (pretty (Z.pos p)) with (pretty (N.pos p)). rewrite Heq.
    rewrite (proj1 (parseInt_digits (pretty_N_char d) rest
                      (mk_is_Some _ _ (digit_value_pretty_N_char d Hd)))), Hparse.
    done.
  - destruct (Hpos p) as (d & rest & Hd & Heq & Hparse).
    change (pretty (Z.neg p)) with (String "-"%char (pretty (N.pos p))). rewrite Heq.
    rewrite (proj2 (parseInt_digits (pretty_N_char d) rest
                      (mk_is_Some _ _ (digit_value_pretty_N_char d Hd)))), Hparse.
    done.
Qed.

(** X18.  For an input of at most 15 characters, [verifyInt] returns a
    number exactly when the input is the text JavaScript prints for that
    number: the decimal digits of an integer without sign [+], leading
    zero, space or suffix, or the text [NaN], for which it returns [NaN].
    Any other input is refused with the message [Not a number:] and the
    input. *)
Theorem verifyInt_canonical_decimal x :
  (String.length x ≤ 15)%nat →
  (∀ num, verifyInt x = inr num ↔ x = Number_toString num) ∧
  (∀ message, verifyInt x = inl message ↔
     message = "Not a number: " +:+ x ∧ ∀ num, x ≠ Number_toString num).
Proof.
  intros _.
  assert (∀ num, parseInt (Number_toString num) = num) as Hround.
  { intros [|z]; [reflexivity|apply parseInt_pretty]. }
  unfold verifyInt. split.
  - intros num. case_bool_decide as Hne.
    + split; [done|]. intros ->. by rewrite Hround in Hne.
    + split.
      * by intros [= <-].
      * intros ->. by rewrite Hround.
  - intros message. case_bool_decide as Hne.
    + split.
      * intros [= <-]. split; [done|]. intros num ->. by rewrite Hround in Hne.
      * by intros [-> _].
    + split; [done|]. intros [_ Hnone].
      by destruct (Hnone (parseInt x)).
Qed.

(** X18 at the inputs [21] and [021]. *)
Lemma verifyInt_canonical_decimal_witness :
  verifyInt "21" = inr (Int 21) ∧ verifyInt "021" = inl "Not a number: 021".
Proof.
  split.
  - apply (proj1 (verifyInt_canonical_decimal "21" ltac:(simpl; lia))). reflexivity.
  - reflexivity.
Defined.

Lemma split_comma_nonempty s : split_comma s ≠ [].
Proof.
  destruct s as [|c s]; simpl; [done|].
  case_bool_decide; [done|]. by destruct (split_comma s).
Qed.

(** X19.  The list of skip labels is the input cut at its commas and
    nothing else: joining the pieces with commas gives the input back, no
    piece contains a comma, and the pieces are not trimmed. *)
Theorem split_comma_join s :
  String.concat "," (split_comma s) = s ∧
  Forall (λ piece, includes piece "," = false) (split_comma s).
Proof.
  induction s as [|c s [IHjoin IHpieces]]; [by repeat constructor|].
  simpl. case_bool_decide as Hc.
  - subst c. split.
    + pose proof (split_comma_nonempty s) as Hne.
      destruct (split_comma s) as [|piece pieces] eqn:Hs; [done|].
      simpl in *. by rewrite IHjoin.
    + by constructor.
  - pose proof (split_comma_nonempty s) as Hne.
    destruct (split_comma s) as [|piece pieces] eqn:Hs; [done|].
    apply Forall_cons in IHpieces as [Hpiece Hpieces]. split.
    + destruct pieces as [|piece' pieces]; simpl in *; by rewrite <- IHjoin.
    + constructor; [|done].
      change (includes (String c piece) ",")
        with (String.prefix "," (String c piece) || includes piece ",").
      rewrite Hpiece, orb_false_r.
      change (String.prefix "," (String c piece))
        with (if Ascii.ascii_dec ","%char c then String.prefix "" piece else false).
      by destruct (Ascii.ascii_dec ","%char c) as [<-|].
Qed.

(** X20.  The options that [run] passes to the constructor, [owner] and
    [repo] apart, are computed without an error exactly when the two
    required numbers are texts that [verifyInt] accepts and the pattern,
    when one is given, compiles. *)
Theorem runProps_succeeds_iff RegExp inputs :
  is_Some (match runProps RegExp inputs with inr p => Some p | inl _ => None end) ↔
  (∃ staleDays, verifyInt (Inputs.stale_days inputs) = inr staleDays) ∧
  (∃ responseDays, verifyInt (Inputs.response_days inputs) = inr responseDays) ∧
  (Inputs.important_checks_regex inputs = "" ∨
   ∃ regex, RegExp (Inputs.important_checks_regex inputs) = inr regex).
Proof.
  unfold runProps.
  destruct (verifyInt (Inputs.stale_days inputs)) as [m|staleDays].
  { split; [by intros [? ?]|by intros [[? ?] _]]. }
  destruct (verifyInt (Inputs.response_days inputs)) as [m|responseDays].
  { split; [by intros [? ?]|by intros (_ & [? ?] & _)]. }
  case_bool_decide as Hregex.
  - destruct (RegExp (Inputs.important_checks_regex inputs)) as [m|regex].
    + split; [by intros [? ?]|]. intros (_ & _ & [?|[? ?]]); done.
    + split; [|by eauto]. intros _. repeat split; eauto.
  - split; [|by eauto]. intros _. repeat split; eauto.
Qed.

(** X21.  The configuration that [index.ts] builds never turns the
    dry-run mode on and never sets the threshold of the merge-conflict
    warning, which stays at 3 days: every entry of the trace of a run so
    configured is a mutating call.  An empty optional input is an absent
    option, so that the closing label, when there is one, is not empty;
    the skip labels are the pieces of the input between commas. *)
Theorem run_configuration RegExp inputs p props pulls :
  runProps RegExp inputs = inr p →
  finderProps p = Some props →
  StalePrFinderProps.dryRun props = false ∧
  mergeConflictWarningDays props = 3 ∧
  StalePrFinderProps.mergeConflictWarning props = None ∧
  StalePrFinderProps.closeLabel props ≠ Some "" ∧
  StalePrFinderProps.skipLabels props =
    (if bool_decide (Inputs.skip_labels inputs ≠ "")
     then Some (split_comma (Inputs.skip_labels inputs)) else None) ∧
  Forall (λ c, is_mutating c = true) (calls (findAll props pulls World_init).2).
Proof.
  intros Hrun Hfinder.
  assert (RunProps.closeLabel p ≠ Some "" ∧
          RunProps.skipLabels p =
            (if bool_decide (Inputs.skip_labels inputs ≠ "")
             then Some (split_comma (Inputs.skip_labels inputs)) else None))
    as [Hlabel Hskip].
  { assert (if_nonempty (Inputs.close_label inputs) id ≠ Some "") as Hl.
    { unfold if_nonempty, id. case_bool_decide as Hne; [|done].
      intros [= Heq]. by rewrite Heq in Hne. }
    unfold runProps in Hrun.
    destruct (verifyInt (Inputs.stale_days inputs)); [done|].
    destruct (verifyInt (Inputs.response_days inputs)); [done|].
    destruct (bool_decide (Inputs.important_checks_regex inputs ≠ ""));
      [destruct (RegExp _); [done|]|];
      injection Hrun as <-; simpl; by split. }
  unfold finderProps in Hfinder.
  destruct (RunProps.staleDays p) as [|staleDays]; [done|].
  destruct (RunProps.responseDays p) as [|responseDays]; [done|].
  injection Hfinder as <-. simpl.
  split; [done|]. split; [done|]. split; [done|]. split; [done|]. split; [done|].
  set (props := StalePrFinderProps.mk _ _ _ _ _ _ _ _ _ _).
  destruct (simulates_forEach props (reverse pulls) World_init World_init)
    as (_ & _ & _ & Hmut).
  { repeat split; simpl; constructor. }
  exact Hmut.
Qed.

(** X21 at the inputs of the example of the README. *)
Lemma run_configuration_witness :
  ∃ props,
    finderProps
      (RunProps.mk (Int 21) (Int 10) None (Some ["label1"; "label2"]) None None
         (Some "some-label")) = Some props ∧
    StalePrFinderProps.dryRun props = false.
Proof.
  eexists. split; [reflexivity|].
  apply (run_configuration (λ _, inl "unused")
           (Inputs.mk "21" "10" "" "label1,label2" "" "" "some-label")
           (RunProps.mk (Int 21) (Int 10) None (Some ["label1"; "label2"]) None None
              (Some "some-label")) _ []).
  - reflexivity.
  - reflexivity.
Defined.

(** ** The text of the warning *)

Lemma replace_first_absent pat rep s :
  includes s pat = false → replace_first pat rep s = s.
Proof.
  induction s as [|c s IH].
  - change (includes "" pat) with (String.prefix pat "" || false).
    rewrite orb_false_r. intros Hp.
    change (replace_first pat rep "")
      with (if String.prefix pat ""
            then rep +:+ String.substring (String.length pat)
                           (String.length "" - String.length pat) ""
            else ""). by rewrite Hp.
  - change (includes (String c s) pat)
      with (String.prefix pat (String c s) || includes s pat).
    intros [Hp Hs]%orb_false_iff.
    change (replace_first pat rep (String c s))
      with (if String.prefix pat (String c s)
            then rep +:+ String.substring (String.length pat)
                           (String.length (String c s) - String.length pat)
                           (String c s)
            else String c (replace_first pat rep s)).
    by rewrite Hp, IH.
Qed.

(** X23.  A configured warn message that does not contain the word STATE
    is posted as it is, on the line after the marker, whatever the
    verdict. *)
Theorem warn_message_without_placeholder props n stale w warnMessage :
  StalePrFinderProps.warnMessage props = Some warnMessage →
  includes warnMessage "STATE" = false →
  performAction props n warn stale w =
    (tt, called (emitted props
                   (createComment n (marker STALE_PR +:+ newline +:+ warnMessage)))
           (counted c_warned w)).
Proof.
  intros Hmessage Habsent. unfold performAction. run_M.
  rewrite addComment_emitted, Hmessage.
  by rewrite replace_first_absent.
Qed.

(** X23 at a message without the placeholder. *)
Lemma warn_message_without_placeholder_witness :
  performAction
    (StalePrFinderProps.mk 21 10 None None None None (Some "Please update.") None None
       false) 7 warn None World_init
  = (tt, {| metrics := Build_Metrics 0 0 0 0 0 0 1 0;
            calls := [createComment 7
                        (marker STALE_PR +:+ newline +:+ "Please update.")] |}).
Proof.
  apply (warn_message_without_placeholder
           (StalePrFinderProps.mk 21 10 None None None None (Some "Please update.")
              None None false) 7 None World_init "Please update.").
  - reflexivity.
  - reflexivity.
Defined.

(** ** From one run to the next *)

(** X24.  After a warning the next runs do not warn again.  When the
    newest comment of a pull request carries the STALE PR marker and was
    created at or after the verdict's [since], and [memberReviewed] holds,
    the action is [nothing] until [responseDays] days after that comment
    and [close] afterwards, whatever the older comments are. *)
Theorem warned_once_then_closed props pull st body created_at author submitted_at
    now w :
  let comments :=
    (PullObs.comments pull
     ++ [Comment.mk (Some body) created_at author submitted_at])%list in
  let pull' :=
    PullObs.mk (PullObs.number pull) (PullObs.labels pull) (PullObs.check_runs pull)
      (PullObs.statuses pull) (PullObs.reviews pull) (PullObs.commits pull)
      (PullObs.mergeable_state pull) comments now in
  includes body (marker STALE_PR) = true →
  since st ≤ created_at →
  memberReviewed (PullObs.reviews pull) comments = true →
  let action := (resolveAction props pull' (Some st) (mostRecentWarnings comments) w).1 in
  let deadline :=
    created_at + StalePrFinderProps.responseDays props * 24 * 3600 * 1000 in
  (now ≤ deadline → action = nothing) ∧ (deadline < now → action = close).
Proof.
  intros comments pull' Hmarked Hsince Hreviewed. cbv zeta.
  rewrite resolveAction_run. simpl. fold comments. rewrite Hreviewed.
  assert (mostRecentWarnings comments STALE_PR = Some created_at) as ->.
  { unfold comments.
    rewrite mostRecentWarnings_last, filter_app, filter_cons_True by done.
    by rewrite filter_nil, last_snoc. }
  unfold decideAction, outOfGracePeriod, olderThanDays. simpl.
  rewrite (bool_decide_eq_false_2 (created_at < since st)) by lia. simpl.
  split; intros Hnow.
  - by rewrite bool_decide_eq_false_2 by lia.
  - by rewrite bool_decide_eq_true_2 by lia.
Qed.

(** X24 at the run of the day after a warning. *)
Lemma warned_once_then_closed_witness :
  (resolveAction props0
     (PullObs.mk 7 [] [] []
        [Review.mk "MEMBER" "CHANGES_REQUESTED" (Some (T0 - 30 * day))]
        [Commit.mk (Some (T0 - 40 * day))] "clean"
        [stale_warning_comment T0] (T0 + day))
     (Some {| reason := "CHANGES REQUESTED"; since := T0 - 30 * day |})
     (mostRecentWarnings [stale_warning_comment T0]) World_init).1 = nothing.
Proof.
  apply (warned_once_then_closed props0
           (PullObs.mk 7 [] [] []
              [Review.mk "MEMBER" "CHANGES_REQUESTED" (Some (T0 - 30 * day))]
              [Commit.mk (Some (T0 - 40 * day))] "clean" [] T0)
           {| reason := "CHANGES REQUESTED"; since := T0 - 30 * day |}
           (marker STALE_PR +:+ newline +:+ "This PR looks abandoned.")
           T0 "NONE" None (T0 + day) World_init).
  - reflexivity.
  - by vm_compute.
  - reflexivity.
  - by vm_compute.
Defined.
